(** * LlamaScanner: a shallow embedding of [LlamaScanner.py]

    The development follows the stages of the scanner: the inventory of
    the models served by each host ([getModelsOnHost], [mapNetwork]), the
    benchmark of every (host, model) pair ([benchmarkSingleModel],
    [processHostBenchmarks], [runRobustBenchmarks]) and the routing table
    ([generateRoutingDataFrame]).

    Python values are modelled as the interpreter holds them: [int] as [Z],
    [float] as an IEEE 754 binary64 value ([spec_float]), [str] as [string],
    a [dict] as an insertion-ordered association list, the value returned
    by [resp.json()] as a tree of JSON values.  Exceptions are explicit: a
    fallible computation returns [Ok v] or [Raise e].

    The network is an oracle: it answers every request a task issues, and
    the properties hold for every oracle.  A thread pool is modelled by
    what the code observes of it: each submitted task runs to its end on a
    trace of its own, and [as_completed] yields the futures in an order
    that is a parameter, any permutation of the submission order.  The
    interleaving of the worker threads themselves is a step relation on
    the states of the pool. *)

From Stdlib Require Import ZArith QArith Qround List String Ascii Bool Lia Lqa.
From Stdlib Require Import Permutation Sorted SpecFloat.
Import ListNotations.

Local Open Scope Z_scope.

(** ** Exceptions and fallible computations *)

Inductive exn : Type :=
| ConnectionError
| Timeout
| HTTPError
| JSONDecodeError
| AttributeError
| KeyError
| TypeError
| ValueError
| ZeroDivisionError
| OverflowError
| StatisticsError.

Inductive res (A : Type) : Type :=
| Ok (a : A)
| Raise (e : exn).

Arguments Ok {A} a.
Arguments Raise {A} e.

Definition res_bind {A B : Type} (r : res A) (k : A -> res B) : res B :=
  match r with
  | Ok a => k a
  | Raise e => Raise e
  end.

Declare Scope res_scope.
Delimit Scope res_scope with res.
Notation "x <- r ;; k" := (res_bind r (fun x => k))
  (at level 61, r at next level, right associativity) : res_scope.

(** ** Python floats: IEEE 754 binary64

    A float is a [spec_float] with 53 bits of precision.  Every operation
    is the exact rational result rounded to the nearest representable
    value, ties to even. *)

Module Float64.

Definition prec : Z := 53.
Definition emax : Z := 1024.
Definition emin : Z := -1074.
(** The largest exponent of a finite value, [emax - prec]. *)
Definition etop : Z := 971.

(** [scale n d e] is the fraction [(n / d) / 2 ^ e]. *)
Definition scale (n d e : Z) : Z * Z :=
  if 0 <=? e then (n, d * 2 ^ e) else (n * 2 ^ (- e), d).

(** [a / b] rounded to the nearest integer, ties to even, for [0 <= a]
    and [0 < b]. *)
Definition rne_div (a b : Z) : Z :=
  let q := a / b in
  match 2 * (a mod b) ?= b with
  | Lt => q
  | Eq => if Z.even q then q else q + 1
  | Gt => q + 1
  end.

(** [floor (log2 (n / d))] for positive [n] and [d]. *)
Definition ilog2_ratio (n d : Z) : Z :=
  let k := Z.log2 n - Z.log2 d in
  let '(n', d') := scale n d k in
  if d' <=? n' then k else k - 1.

(** Mantissa and exponent of the binary64 value nearest to [n / d]. *)
Definition round_pos (n d : Z) : Z * Z :=
  let e := Z.max (ilog2_ratio n d - (prec - 1)) emin in
  let '(n', d') := scale n d e in
  let m := rne_div n' d' in
  if m =? 2 ^ prec then (2 ^ (prec - 1), e + 1) else (m, e).

Definition make_float (s : bool) (m e : Z) : spec_float :=
  match m with
  | Zpos p => if e <=? etop then S754_finite s p e else S754_infinity s
  | _ => S754_zero s
  end.

(** The float of sign [s] and magnitude nearest to [n / d] ([0 <= n],
    [0 < d]); a magnitude too large rounds to infinity. *)
Definition round_ratio (s : bool) (n d : Z) : spec_float :=
  match n with
  | Zpos _ => let '(m, e) := round_pos n d in make_float s m e
  | _ => S754_zero s
  end.

Definition round_Q (q : Q) : spec_float :=
  round_ratio (Qnum q <? 0) (Z.abs (Qnum q)) (Zpos (Qden q)).

(** The exact value of a finite float ([float.as_integer_ratio]). *)
Definition ratio_of (m : positive) (e : Z) : Z * Z :=
  scale (Zpos m) 1 (- e).

Definition to_Q (x : spec_float) : Q :=
  match x with
  | S754_finite s m e =>
      let '(n, d) := ratio_of m e in
      (if s then - n else n) # Z.to_pos d
  | _ => 0%Q
  end.

Definition is_finite (x : spec_float) : bool :=
  match x with
  | S754_zero _ | S754_finite _ _ _ => true
  | _ => false
  end.

Definition is_nan (x : spec_float) : bool :=
  match x with
  | S754_nan => true
  | _ => false
  end.

(** IEEE division. *)
Definition div (x y : spec_float) : spec_float :=
  match x, y with
  | S754_nan, _ | _, S754_nan => S754_nan
  | S754_infinity _, S754_infinity _ => S754_nan
  | S754_zero _, S754_zero _ => S754_nan
  | S754_infinity sx, S754_finite sy _ _
  | S754_infinity sx, S754_zero sy
  | S754_finite sx _ _, S754_zero sy => S754_infinity (xorb sx sy)
  | S754_finite sx _ _, S754_infinity sy
  | S754_zero sx, S754_infinity sy
  | S754_zero sx, S754_finite sy _ _ => S754_zero (xorb sx sy)
  | S754_finite sx mx ex, S754_finite sy my ey =>
      let '(n, d) := scale (Zpos mx) (Zpos my) (ey - ex) in
      round_ratio (xorb sx sy) n d
  end.

(** [float(z)] for a Python int: [OverflowError] when [z] is too large. *)
Definition of_int (z : Z) : res spec_float :=
  match round_Q (inject_Z z) with
  | S754_infinity _ => Raise OverflowError
  | x => Ok x
  end.

(** [a / b] for two Python ints with [b <> 0], and [float(Fraction)]:
    the quotient correctly rounded, [OverflowError] when too large. *)
Definition of_Q (q : Q) : res spec_float :=
  match round_Q q with
  | S754_infinity _ => Raise OverflowError
  | x => Ok x
  end.

(** [x / y] for two Python floats. *)
Definition truediv (x y : spec_float) : res spec_float :=
  match y with
  | S754_zero _ => Raise ZeroDivisionError
  | _ => Ok (div x y)
  end.

(** Python's [x > 0] for a float. *)
Definition gt0 (x : spec_float) : bool :=
  match x with
  | S754_finite false _ _ | S754_infinity false => true
  | _ => false
  end.

(** Python's [x >= y]: false as soon as one side is NaN. *)
Definition geb (x y : spec_float) : bool :=
  match x, y with
  | S754_nan, _ | _, S754_nan => false
  | S754_infinity false, _ => true
  | _, S754_infinity true => true
  | S754_infinity true, _ => false
  | _, S754_infinity false => false
  | _, _ => Qle_bool (to_Q y) (to_Q x)
  end.

(** [round(x, 2)]: non-finite values round to themselves; a finite value
    is rounded to two decimal places (ties to even on its exact value),
    and the decimal result is converted back to the nearest float. *)
Definition round2 (x : spec_float) : res spec_float :=
  match x with
  | S754_finite s m e =>
      let '(n, d) := ratio_of m e in
      match round_ratio s (rne_div (n * 100) d) 100 with
      | S754_infinity _ => Raise OverflowError
      | y => Ok y
      end
  | _ => Ok x
  end.



Definition is_inf (x : spec_float) : bool :=
  match x with
  | S754_infinity _ => true
  | _ => false
  end.

End Float64.

(** ** Values returned by [resp.json()] *)

#[local] Set Warnings "-register-all".

Inductive json : Type :=
| JNull
| JBool (b : bool)
| JInt (z : Z)
| JFloat (x : spec_float)
| JStr (s : string)
| JArr (items : list json)
| JObj (fields : list (string * json)).

(** ** Python dicts: association lists in insertion order *)

Definition dict (V : Type) : Type := list (string * V).

Fixpoint dict_get {V : Type} (k : string) (d : dict V) : option V :=
  match d with
  | [] => None
  | (k', v) :: d' => if String.eqb k k' then Some v else dict_get k d'
  end.

(** [d[k] = v]: an existing key keeps its position, a new key goes last. *)
Fixpoint dict_set {V : Type} (k : string) (v : V) (d : dict V) : dict V :=
  match d with
  | [] => [(k, v)]
  | (k', v') :: d' =>
      if String.eqb k k' then (k, v) :: d' else (k', v') :: dict_set k v d'
  end.

Definition keys {V : Type} (d : dict V) : list string := map fst d.

(** ** Operations of the interpreter on JSON values *)

Definition f1e9 : spec_float := S754_finite false 8388608000000000 (-23).

(** [v.get(key, default)] *)
Definition json_get (v : json) (key : string) (default : json) : res json :=
  match v with
  | JObj fields =>
      match dict_get key fields with
      | Some x => Ok x
      | None => Ok default
      end
  | _ => Raise AttributeError
  end.

(** [v[key]] for a string [key] *)
Definition json_getitem (v : json) (key : string) : res json :=
  match v with
  | JObj fields =>
      match dict_get key fields with
      | Some x => Ok x
      | None => Raise KeyError
      end
  | _ => Raise TypeError
  end.

(** [iter(v)]: a list yields its items, a dict its keys, a string its
    characters. *)
Definition json_iter (v : json) : res (list json) :=
  match v with
  | JArr items => Ok items
  | JObj fields => Ok (map (fun kv => JStr (fst kv)) fields)
  | JStr s => Ok (map (fun c => JStr (String c EmptyString)) (list_ascii_of_string s))
  | _ => Raise TypeError
  end.

(** [v > 0] *)
Definition json_gt0 (v : json) : res bool :=
  match v with
  | JInt z => Ok (0 <? z)
  | JBool b => Ok b
  | JFloat x => Ok (Float64.gt0 x)
  | _ => Raise TypeError
  end.

(** The float a number is converted to when it meets a float in [/]. *)
Definition json_to_float (v : json) : res spec_float :=
  match v with
  | JInt z => Float64.of_int z
  | JBool b => Float64.of_int (if b then 1 else 0)
  | JFloat x => Ok x
  | _ => Raise TypeError
  end.

(** [v / y] for a float [y] *)
Definition json_truediv (v : json) (y : spec_float) : res spec_float :=
  (x <- json_to_float v ;; Float64.truediv x y)%res.

(** ** [statistics.mean] on a list of floats

    The library sums the exact ratios of the finite values as fractions;
    as soon as one value is an infinity or a NaN, the total is the float
    sum of the non-finite values alone. *)

Definition exact_sum (data : list spec_float) : Q :=
  fold_left (fun acc x => (acc + Float64.to_Q x)%Q) data 0%Q.

(** One step of the float sum of the non-finite values
    ([partials[None] = partials.get(None, 0) + x]). *)
Definition special_step (acc : option spec_float) (x : spec_float)
    : option spec_float :=
  if Float64.is_finite x then acc
  else match acc with
       | None => Some x
       | Some t => Some (SFadd Float64.prec Float64.emax t x)
       end.

Definition special_sum (data : list spec_float) : option spec_float :=
  fold_left special_step data None.

Definition statistics_mean (data : list spec_float) : res spec_float :=
  let n := Z.of_nat (List.length data) in
  if n <? 1 then Raise StatisticsError
  else match special_sum data with
       | Some total => (nf <- Float64.of_int n ;; Float64.truediv total nf)%res
       | None => Float64.of_Q (Qred (exact_sum data / inject_Z n))
       end.

(** ** The network and the task monad

    A task records what it does in a trace, newest event first.  The
    network decides the outcome of a request from the trace of the task
    that issues it. *)

Record response : Type := {
  status_code : Z;
  (** [None]: the body is not JSON and [resp.json()] raises *)
  body : option json
}.

Inductive event : Type :=
| EvGet (url : string) (timeout : Z)
| EvPost (url : string) (payload : json) (timeout : Z)
| EvSleep (secs : Z).

Inductive outcome : Type :=
| Answer (r : response)
| Error (e : exn).

Definition network : Type := list event -> event -> outcome.

Definition M (A : Type) : Type := list event -> res A * list event.

Definition ret {A : Type} (a : A) : M A := fun tr => (Ok a, tr).

Definition bind {A B : Type} (m : M A) (k : A -> M B) : M B :=
  fun tr =>
    match m tr with
    | (Ok a, tr') => k a tr'
    | (Raise e, tr') => (Raise e, tr')
    end.

Definition lift {A : Type} (r : res A) : M A := fun tr => (r, tr).

(** [try: m except: ...] seen from the handler: the outcome of [m]. *)
Definition attempt {A : Type} (m : M A) : M (res A) :=
  fun tr => let '(r, tr') := m tr in (Ok r, tr').

Declare Scope task_scope.
Delimit Scope task_scope with task.
Notation "x <- m ;; k" := (bind m (fun x => k))
  (at level 61, m at next level, right associativity) : task_scope.
Local Open Scope task_scope.

Definition request (net : network) (ev : event) : M response :=
  fun tr =>
    match net tr ev with
    | Answer r => (Ok r, ev :: tr)
    | Error e => (Raise e, ev :: tr)
    end.

Definition requests_get (net : network) (url : string) (timeout : Z) : M response :=
  request net (EvGet url timeout).

Definition requests_post (net : network) (url : string) (payload : json)
    (timeout : Z) : M response :=
  request net (EvPost url payload timeout).

Definition raise_for_status (resp : response) : res unit :=
  if (400 <=? status_code resp) && (status_code resp <? 600)
  then Raise HTTPError else Ok tt.

Definition resp_json (resp : response) : res json :=
  match body resp with
  | Some v => Ok v
  | None => Raise JSONDecodeError
  end.

(** [time.sleep(secs)] for an int: the duration is converted to a signed
    64-bit count of nanoseconds ([OverflowError] when it does not fit) and
    must not be negative ([ValueError]). *)
Definition sleep_max : Z := 9223372036.

Definition time_sleep (secs : Z) : M unit :=
  fun tr =>
    if (secs <? - sleep_max) || (sleep_max <? secs) then (Raise OverflowError, tr)
    else if secs <? 0 then (Raise ValueError, tr)
    else (Ok tt, EvSleep secs :: tr).

Fixpoint mapM_res {A B : Type} (f : A -> res B) (l : list A) : res (list B) :=
  match l with
  | [] => Ok []
  | a :: l' => (b <- f a ;; bs <- mapM_res f l' ;; Ok (b :: bs))%res
  end.

(** ** The scanner *)

Record Args : Type := {
  runs : Z;
  cooldown : Z;
  timeout_load : Z;
  timeout_bench : Z;
  workers : Z
}.

(** The value stored for a (host, model) pair: a throughput, or one of
    the strings ["Failed (Warmup)"] and ["Failed"]. *)
Inductive bench_result : Type :=
| Tps (v : spec_float)
| Marker (s : string).

Definition FailedWarmup : bench_result := Marker "Failed (Warmup)".
Definition Failed : bench_result := Marker "Failed".

Definition api_url (ip : string) (port : string) (path : string) : string :=
  ("http://" ++ ip ++ ":" ++ port ++ path)%string.

(** *** Inventory *)

(** [getModelsOnHost(ip)]: the names under ["models"] in the answer to
    [GET /api/tags], or no model when anything raises. *)
Definition getModelsOnHost (net : network) (ip : string) : M (string * list json) :=
  r <- attempt (
         resp <- requests_get net (api_url ip "11434" "/api/tags") 5 ;;
         _ <- lift (raise_for_status resp) ;;
         data <- lift (resp_json resp) ;;
         models <- lift (json_get data "models" (JArr [])) ;;
         items <- lift (json_iter models) ;;
         names <- lift (mapM_res (fun m => json_getitem m "name") items) ;;
         ret (ip, names)) ;;
  match r with
  | Ok v => ret v
  | Raise _ => ret (ip, [])
  end.

(** [submit] runs a task on a trace of its own; the future holds what the
    task returned or raised. *)
Definition submit {A : Type} (task : M A) : res A := fst (task []).

(** [as_completed]: the futures in the order in which they complete,
    given as a list of positions in the list of submitted futures. *)
Definition as_completed {A : Type} (order : list nat) (futures : list A) : list A :=
  flat_map (fun i => match nth_error futures i with
                     | Some f => [f]
                     | None => []
                     end) order.

(** The tasks of one pool, numbered in submission order; [nets i] is the
    network as the [i]-th task meets it. *)
Fixpoint submit_all {A B : Type} (task : network -> A -> M B)
    (nets : nat -> network) (i : nat) (l : list A) : list (res B) :=
  match l with
  | [] => []
  | a :: l' => submit (task (nets i) a) :: submit_all task nets (S i) l'
  end.

(** The loop of [mapNetwork] over the completed futures:
    [if models: inventory[ip] = models]. *)
Fixpoint mapNetwork_collect (done : list (res (string * list json)))
    (inventory : dict (list json)) : res (dict (list json)) :=
  match done with
  | [] => Ok inventory
  | future :: rest =>
      match future with
      | Raise e => Raise e
      | Ok (ip, models) =>
          match models with
          | [] => mapNetwork_collect rest inventory
          | _ :: _ => mapNetwork_collect rest (dict_set ip models inventory)
          end
      end
  end.

(** [mapNetwork(hosts)] *)
Definition mapNetwork (nets : nat -> network) (order : list nat)
    (hosts : list string) : res (dict (list json)) :=
  let futures := submit_all getModelsOnHost nets 0 hosts in
  mapNetwork_collect (as_completed order futures) [].

(** *** Benchmark

    From here on a model identifier is a string, as the inventory of a
    well-behaved host lists them. *)

(** The [payload] of [benchmarkSingleModel]. *)
Definition payload_of (model : string) : json :=
  JObj [("model", JStr model);
        ("prompt", JStr "Write a paragraph about the history of the internet.");
        ("stream", JBool false);
        ("options", JObj [("num_predict", JInt 100);
                          ("temperature", JFloat (S754_zero false));
                          ("seed", JInt 42)])]%string.

(** What one measured run makes of the response it received: a sample,
    nothing, or an exception. *)
Definition sample_of (resp : response) : res (option spec_float) :=
  if status_code resp =? 200 then
    (data <- resp_json resp ;;
     duration <- json_get data "eval_duration" (JInt 0) ;;
     positive <- json_gt0 duration ;;
     if positive : bool then
       count <- json_getitem data "eval_count" ;;
       duration' <- json_getitem data "eval_duration" ;;
       seconds <- json_truediv duration' f1e9 ;;
       tps <- json_truediv count seconds ;;
       Ok (Some tps)
     else Ok None)%res
  else Ok None.

(** One iteration of [for _ in range(args.runs)]: the request and what
    follows it are inside [try], and [except: pass] keeps the samples. *)
Definition measured_run (net : network) (url : string) (payload : json)
    (args : Args) (samples : list spec_float) : M (list spec_float) :=
  r <- attempt (
         resp <- requests_post net url payload (timeout_bench args) ;;
         s <- lift (sample_of resp) ;;
         match s with
         | Some tps => ret (samples ++ [tps])%list
         | None => ret samples
         end) ;;
  match r with
  | Ok samples' => ret samples'
  | Raise _ => ret samples
  end.

Fixpoint measured_runs (net : network) (url : string) (payload : json)
    (args : Args) (n : nat) (samples : list spec_float) : M (list spec_float) :=
  match n with
  | O => ret samples
  | S n' =>
      samples' <- measured_run net url payload args samples ;;
      measured_runs net url payload args n' samples'
  end.

(** [if not samples: return "Failed"] and
    [return round(statistics.mean(samples), 2)]. *)
Definition aggregate (samples : list spec_float) : res bench_result :=
  match samples with
  | [] => Ok Failed
  | _ :: _ =>
      (mu <- statistics_mean samples ;;
       r <- Float64.round2 mu ;;
       Ok (Tps r))%res
  end.

(** [benchmarkSingleModel(ip, model, args)]: the warm-up request, whose
    failure returns ["Failed (Warmup)"], then the measured runs. *)
Definition benchmarkSingleModel (net : network) (ip model : string)
    (args : Args) : M bench_result :=
  let url := api_url ip "11434" "/api/generate" in
  let payload := payload_of model in
  warm <- attempt (requests_post net url payload (timeout_load args)) ;;
  match warm with
  | Raise _ => ret FailedWarmup
  | Ok _ =>
      samples <- measured_runs net url payload args (Z.to_nat (runs args)) [] ;;
      lift (aggregate samples)
  end.

(** The loop of [processHostBenchmarks] over the models of a host. *)
Fixpoint benchmark_models (net : network) (ip : string) (args : Args)
    (models : list string) (results : dict bench_result) : M (dict bench_result) :=
  match models with
  | [] => ret results
  | model :: rest =>
      tps <- benchmarkSingleModel net ip model args ;;
      let results := dict_set model tps results in
      _ <- time_sleep (cooldown args) ;;
      benchmark_models net ip args rest results
  end.

(** [processHostBenchmarks(ip, models, args)] *)
Definition processHostBenchmarks (net : network) (args : Args)
    (host : string * list string) : M (string * dict bench_result) :=
  let '(ip, models) := host in
  results <- benchmark_models net ip args models [] ;;
  ret (ip, results).

(** The loop of [runRobustBenchmarks] over the completed futures:
    [future.result()] raises what the task raised. *)
Fixpoint runRobustBenchmarks_collect
    (done : list (res (string * dict bench_result)))
    (final_stats : dict (dict bench_result)) : res (dict (dict bench_result)) :=
  match done with
  | [] => Ok final_stats
  | future :: rest =>
      match future with
      | Raise e => Raise e
      | Ok (ip, data) => runRobustBenchmarks_collect rest (dict_set ip data final_stats)
      end
  end.

(** [runRobustBenchmarks(inventory, args)]; [ThreadPoolExecutor] raises
    [ValueError] unless [max_workers] is positive. *)
Definition runRobustBenchmarks (nets : nat -> network) (order : list nat)
    (inventory : dict (list string)) (args : Args) : res (dict (dict bench_result)) :=
  if workers args <=? 0 then Raise ValueError
  else
    let futures :=
      submit_all (fun net => processHostBenchmarks net args) nets 0 inventory in
    runRobustBenchmarks_collect (as_completed order futures) [].

(** *** Routing table *)

Record row : Type := {
  model : string;
  route : string;
  ip : string;
  tps : spec_float
}.

(** The order of [sort_values(by=["model", "tps"], ascending=[True, False])]:
    models ascending, then throughput descending, a NaN after every
    number. *)
Definition tps_before (x y : spec_float) : bool :=
  match x, y with
  | _, S754_nan => true
  | S754_nan, _ => false
  | _, _ => Float64.geb x y
  end.

Definition row_before (r1 r2 : row) : bool :=
  match String.compare (model r1) (model r2) with
  | Lt => true
  | Eq => tps_before (tps r1) (tps r2)
  | Gt => false
  end.

(** The sort is stable: a row goes after the rows it does not precede. *)
Fixpoint insert_row (r : row) (sorted : list row) : list row :=
  match sorted with
  | [] => [r]
  | r' :: rest =>
      if row_before r' r then r' :: insert_row r rest else r :: sorted
  end.

Definition sort_values (rows : list row) : list row :=
  fold_left (fun sorted r => insert_row r sorted) rows [].

(** The rows of one host: the entries that are a [float]. *)
Definition rows_of_host (host : string * dict bench_result) : list row :=
  let '(ip, models) := host in
  flat_map (fun entry : string * bench_result =>
              let '(model, speed) := entry in
              match speed with
              | Tps v => [ {| model := model;
                              route := ("ollama/" ++ model)%string;
                              ip := api_url ip "11434" "";
                              tps := v |} ]
              | Marker _ => []
              end) models.

(** [generateRoutingDataFrame(stats)]: the table is sorted unless it is
    empty; the selection of the four columns changes nothing. *)
Definition generateRoutingDataFrame (stats : dict (dict bench_result)) : list row :=
  let rows := flat_map rows_of_host stats in
  match rows with
  | [] => rows
  | _ :: _ => sort_values rows
  end.

(** * Vocabulary of the properties *)

(** The URL and the payload of the generation requests of a pair. *)
Definition generate_url (ip : string) : string := api_url ip "11434" "/api/generate".

(** The warm-up request and the request of a measured run. *)
Definition warmup_request (ip model : string) (args : Args) : event :=
  EvPost (generate_url ip) (payload_of model) (timeout_load args).

Definition measured_request (ip model : string) (args : Args) : event :=
  EvPost (generate_url ip) (payload_of model) (timeout_bench args).

Definition is_post (ev : event) : bool :=
  match ev with
  | EvPost _ _ _ => true
  | _ => false
  end.

(** The number of generation requests recorded in a trace. *)
Definition posts (tr : list event) : nat := List.length (filter is_post tr).

(** The outcomes met by [n] successive requests [ev] started on [tr]. *)
Fixpoint run_outcomes (net : network) (ev : event) (n : nat) (tr : list event)
    : list outcome :=
  match n with
  | O => []
  | S n' => net tr ev :: run_outcomes net ev n' (ev :: tr)
  end.

(** The samples a measured run appends for the outcome of its request. *)
Definition collected (o : outcome) : list spec_float :=
  match o with
  | Answer r =>
      match sample_of r with
      | Ok (Some tps) => [tps]
      | _ => []
      end
  | Error _ => []
  end.

(** The samples of a pair whose warm-up went through on trace [tr]. *)
Definition samples_of_pair (net : network) (ip model : string) (args : Args)
    (tr : list event) : list spec_float :=
  flat_map collected
    (run_outcomes net (measured_request ip model args) (Z.to_nat (runs args))
       (warmup_request ip model args :: tr)).

(** The JSON numbers [0] and [0.0]. *)
Definition json_is_zero (v : json) : bool :=
  match v with
  | JInt 0 | JFloat (S754_zero _) => true
  | _ => false
  end.

(** A run whose response reports [eval_duration = 0]. *)
Definition reports_zero_duration (o : outcome) : Prop :=
  exists r fields duration,
    o = Answer r /\ body r = Some (JObj fields) /\
    dict_get "eval_duration" fields = Some duration /\
    json_is_zero duration = true.

(** The accumulator of the non-finite values in [statistics.mean]:
    absent, or an infinity or a NaN. *)
Definition non_finite_acc (acc : option spec_float) : Prop :=
  match acc with
  | None => True
  | Some t => Float64.is_finite t = false
  end.

(** What [benchmarkSingleModel] stores for a pair: a throughput or one of
    the two failure markers. *)
Definition recorded (v : bench_result) : Prop :=
  (exists x, v = Tps x) \/ v = Failed \/ v = FailedWarmup.

(** The results of one host: one entry for each of its models, and no
    other. *)
Definition host_data_ok (models : list string) (data : dict bench_result) : Prop :=
  NoDup (keys data) /\
  (forall m, In m (keys data) <-> In m models) /\
  (forall m v, dict_get m data = Some v -> recorded v).

(** [final_stats[ip] = data] for each completed task, in order. *)
Definition store_all {V : Type} (items : list (string * V)) (acc : dict V) : dict V :=
  fold_left (fun d item => dict_set (fst item) (snd item) d) items acc.

(** The models a host reports to the task that queries it. *)
Definition host_models (net : network) (ip : string) : list json :=
  match submit (getModelsOnHost net ip) with
  | Ok (_, models) => models
  | Raise _ => []
  end.

(** What the tasks of the inventory pool return, in submission order. *)
Fixpoint host_answers (nets : nat -> network) (i : nat) (hosts : list string)
    : list (string * list json) :=
  match hosts with
  | [] => []
  | ip :: hosts' => (ip, host_models (nets i) ip) :: host_answers nets (S i) hosts'
  end.

(** The (host, model) pairs of a result that hold a throughput. *)
Definition numeric_entries (stats : dict (dict bench_result))
    : list (string * string * spec_float) :=
  flat_map (fun host : string * dict bench_result =>
              flat_map (fun entry : string * bench_result =>
                          match snd entry with
                          | Tps v => [(fst host, fst entry, v)]
                          | Marker _ => []
                          end) (snd host)) stats.

(** The row of the routing table for such a pair. *)
Definition row_of_entry (entry : string * string * spec_float) : row :=
  let '(host, name, v) := entry in
  {| model := name;
     route := ("ollama/" ++ name)%string;
     ip := api_url host "11434" "";
     tps := v |}.

(** [r1] comes before [r2] in the table. *)
Definition earlier_later (table : list row) (r1 r2 : row) : Prop :=
  exists before between after,
    table = before ++ r1 :: between ++ r2 :: after.

Definition row_le (r1 r2 : row) : Prop := row_before r1 r2 = true.

(** The ranking stated for the table: of two rows for the same model, the
    earlier one has the greater or equal throughput. *)
Definition throughput_descending (table : list row) : Prop :=
  forall r1 r2,
    earlier_later table r1 r2 -> model r1 = model r2 ->
    Float64.geb (tps r1) (tps r2) = true.

(** A generation response carrying the two counters. *)
Definition generation (count duration : Z) : outcome :=
  Answer {| status_code := 200;
            body := Some (JObj [("eval_count", JInt count);
                                ("eval_duration", JInt duration)]%string) |}.

(** A network on which host ["a"] reports, for its two measured runs,
    [10^300] and then [-10^300] tokens in one nanosecond, and every other
    host 100 tokens in two seconds. *)
Definition extreme_net : network :=
  fun tr ev =>
    match ev with
    | EvPost url _ _ =>
        if String.eqb url (generate_url "a") then
          match List.length tr with
          | 1%nat => generation (10 ^ 300) 1
          | _ => generation (- 10 ^ 300) 1
          end
        else generation 100 2000000000
    | _ => Error ConnectionError
    end.

Definition extreme_inventory : dict (list string) :=
  [("a", ["m"]); ("b", ["m"])]%string.

Definition extreme_args : Args :=
  {| runs := 2; cooldown := 0; timeout_load := 300; timeout_bench := 60;
     workers := 10 |}.

Definition extreme_stats : dict (dict bench_result) :=
  [("a", [("m", Tps S754_nan)]);
   ("b", [("m", Tps (S754_finite false 7036874417766400 (-47)))])]%string.

(** Networks and responses of the scenarios. *)

(** Every request times out. *)
Definition down_net : network := fun _ _ => Error Timeout.

(** The first request of a task is answered [503] without a body, the
    following ones report 100 tokens in two seconds. *)
Definition busy_net : network :=
  fun tr _ =>
    match tr with
    | [] => Answer {| status_code := 503; body := None |}
    | _ => generation 100 2000000000
    end.

(** A response with a duration and no token count. *)
Definition no_count_response : response :=
  {| status_code := 200;
     body := Some (JObj [("eval_duration", JInt 5)]%string) |}.

(** The second request of a task (its first measured run) receives
    [no_count_response], the others 100 tokens in two seconds. *)
Definition no_count_net : network :=
  fun tr _ =>
    match tr with
    | [_] => Answer no_count_response
    | _ => generation 100 2000000000
    end.

(** Every response reports no token and a zero duration. *)
Definition idle_net : network := fun _ _ => generation 0 0.

(** Host ["a"] lists two models, host ["b"] none, host ["c"] is down. *)
Definition tags_net : network :=
  fun _ ev =>
    match ev with
    | EvGet url _ =>
        if String.eqb url (api_url "a" "11434" "/api/tags") then
          Answer {| status_code := 200;
                    body := Some (JObj [("models",
                                         JArr [JObj [("name", JStr "llama3")];
                                               JObj [("name", JStr "phi3")]])]) |}
        else if String.eqb url (api_url "b" "11434" "/api/tags") then
          Answer {| status_code := 200; body := Some (JObj [("models", JArr [])]) |}
        else Error ConnectionError
    | _ => Error ConnectionError
    end%string.

Definition f50 : spec_float := S754_finite false 7036874417766400 (-47).
Definition f33_3 : spec_float := S754_finite false 4686558362232422 (-47).

(** ** Worker threads

    The tasks of [runRobustBenchmarks] run on the threads of a pool.  A
    task is sequential: its steps are those of its trace, in order, a
    blocking request being two steps, sending it and receiving its
    outcome.  The pool starts a queued task only while fewer than
    [workers] tasks are active, and the active tasks are interleaved in
    any order. *)



















(** * Discovery and proxy configuration *)

(** ** [getTailscaleIps] *)

(** What [subprocess.run(["tailscale", "status", "--json"], ...)] does:
    it raises [FileNotFoundError], raises another exception, or completes
    with a return code and an output that [json.loads] parses or not. *)
Inductive run_outcome : Type :=
| ToolMissing
| RunFails (e : exn)
| Completed (returncode : Z) (stdout : option json).

(** [":" in s] for a string [s] *)
Definition has_colon (s : string) : bool :=
  existsb (Ascii.eqb ":") (list_ascii_of_string s).

Definition is_colon (v : json) : bool :=
  match v with
  | JStr s => String.eqb s ":"
  | _ => false
  end.

(** [":" not in ip and ip.startswith("100.")]: a list or a dict is tested
    for the member [":"] and has no [startswith]; a number, a boolean or
    [None] has no members. *)
Definition valid_ip (ip : json) : res bool :=
  match ip with
  | JStr s => Ok (negb (has_colon s) && String.prefix "100." s)
  | JArr items =>
      if existsb is_colon items then Ok false else Raise AttributeError
  | JObj fields =>
      if existsb (fun kv => String.eqb (fst kv) ":") fields then Ok false
      else Raise AttributeError
  | _ => Raise TypeError
  end.

(** [[ip for ip in items if ":" not in ip and ip.startswith("100.")]] *)
Fixpoint valid_ips (items : list json) : res (list string) :=
  match items with
  | [] => Ok []
  | ip :: rest =>
      (keep <- valid_ip ip ;;
       ips <- valid_ips rest ;;
       Ok (match ip with
           | JStr s => if keep : bool then s :: ips else ips
           | _ => ips
           end))%res
  end.

(** The comprehension over [node.get("TailscaleIPs", [])]. *)
Definition node_ips (node : json) : res (list string) :=
  (v <- json_get node "TailscaleIPs" (JArr []) ;;
   items <- json_iter v ;;
   valid_ips items)%res.

(** A set of strings, in the order in which its elements were added. *)
Definition set_add (s : string) (ips : list string) : list string :=
  if existsb (String.eqb s) ips then ips else (ips ++ [s])%list.

(** [ips.update(new)] *)
Definition set_update (ips new : list string) : list string :=
  fold_left (fun acc s => set_add s acc) new ips.

(** [d.values()] *)
Definition json_values (v : json) : res (list json) :=
  match v with
  | JObj fields => Ok (map snd fields)
  | _ => Raise AttributeError
  end.

(** [[data.get("Self", {})] + list(data.get("Peer", {}).values())] *)
Definition tailscale_nodes (data : json) : res (list json) :=
  (self <- json_get data "Self" (JObj []) ;;
   peer <- json_get data "Peer" (JObj []) ;;
   peers <- json_values peer ;;
   Ok (self :: peers))%res.

(** The loop over the nodes: an exception ends it, and the addresses
    added so far stay in the set. *)
Fixpoint scan_nodes (nodes : list json) (ips : list string) : list string :=
  match nodes with
  | [] => ips
  | node :: rest =>
      match node_ips node with
      | Ok new => scan_nodes rest (set_update ips new)
      | Raise _ => ips
      end
  end.

(** The set [ips] when [getTailscaleIps] returns. *)
Definition tailscale_set (tailscale : run_outcome) : list string :=
  match tailscale with
  | Completed 0 (Some data) =>
      match tailscale_nodes data with
      | Ok nodes => scan_nodes nodes []
      | Raise _ => []
      end
  | _ => []
  end.

(** [getTailscaleIps()]; [list(ips)] lists the set in an order of its own,
    [shuffle]. *)
Definition getTailscaleIps (tailscale : run_outcome)
    (shuffle : list string -> list string) : list string :=
  shuffle (tailscale_set tailscale).

(** ** [checkOllamaPort] and [findActiveHosts] *)

(** What the probe of a host does: [connect_ex] returns a code, or
    something raises. *)
Inductive probe_outcome : Type :=
| Connected (code : Z)
| ProbeRaises (e : exn).

Definition prober : Type := string -> probe_outcome.

(** [checkOllamaPort(ip)] *)
Definition checkOllamaPort (probe : prober) (ip : string) : option string :=
  match probe ip with
  | Connected 0 => Some ip
  | _ => None
  end.

(** The futures of the probes, in submission order; [probes i] is the
    network as the [i]-th probe meets it. *)
Fixpoint submit_probes (probes : nat -> prober) (i : nat) (candidates : list string)
    : list (option string) :=
  match candidates with
  | [] => []
  | ip :: rest => checkOllamaPort (probes i) ip :: submit_probes probes (S i) rest
  end.

(** The loop of [findActiveHosts] over the completed futures:
    [if future.result(): activeHosts.append(future.result())]; an empty
    string is false. *)
Fixpoint findActiveHosts_collect (done : list (option string))
    (activeHosts : list string) : list string :=
  match done with
  | [] => activeHosts
  | result :: rest =>
      match result with
      | Some ip =>
          if String.eqb ip "" then findActiveHosts_collect rest activeHosts
          else findActiveHosts_collect rest (activeHosts ++ [ip])
      | None => findActiveHosts_collect rest activeHosts
      end
  end.

(** [findActiveHosts()] *)
Definition findActiveHosts (tailscale : run_outcome)
    (shuffle : list string -> list string) (probes : nat -> prober)
    (order : list nat) : list string :=
  let candidates := getTailscaleIps tailscale shuffle in
  match candidates with
  | [] => []
  | _ :: _ =>
      findActiveHosts_collect (as_completed order (submit_probes probes 0 candidates)) []
  end.

(** ** [generateProxyJson] *)

(** The list [targets]: one target for each host with models. *)
Definition proxy_targets (inventory : dict (list json)) : list json :=
  flat_map (fun host : string * list json =>
              match snd host with
              | [] => []
              | _ :: _ =>
                  [JObj [("url", JStr (api_url (fst host) "11434" ""));
                         ("models", JArr (snd host))]%string]
              end) inventory.

(** [generateProxyJson(inventory)]; [dumps] is [json.dumps] with
    [indent=2]. *)
Definition generateProxyJson (dumps : json -> string)
    (inventory : dict (list json)) : string :=
  dumps (JObj [("targets", JArr (proxy_targets inventory))]%string).

(** ** Vocabulary of the properties of discovery *)

(** An IPv4 address of the mesh: no colon, and the prefix ["100."]. *)
Definition mesh_ipv4 (s : string) : Prop :=
  has_colon s = false /\ String.prefix "100." s = true.

(** A node that lists its addresses as a JSON array of strings (or lists
    none). *)
Definition plain_node (node : json) : Prop :=
  exists fields,
    node = JObj fields /\
    (dict_get "TailscaleIPs" fields = None \/
     exists items,
       dict_get "TailscaleIPs" fields = Some (JArr (map JStr items))).

(** [s] is one of the addresses the node lists. *)
Definition lists_address (node : json) (s : string) : Prop :=
  exists fields items,
    node = JObj fields /\
    dict_get "TailscaleIPs" fields = Some (JArr (map JStr items)) /\
    In s items.

(** The results [findActiveHosts] appends: the non-empty strings. *)
Definition appended (done : list (option string)) : list string :=
  flat_map (fun result : option string =>
              match result with
              | Some ip => if String.eqb ip "" then [] else [ip]
              | None => []
              end) done.

(** The target [generateProxyJson] builds for a host. *)
Definition proxy_target (host : string * list json) : json :=
  JObj [("url", JStr (api_url (fst host) "11434" ""));
        ("models", JArr (snd host))]%string.

Definition has_models (host : string * list json) : bool :=
  match snd host with
  | [] => false
  | _ :: _ => true
  end.



(** An entry of the list of models that has a name. *)
Definition named (entry name : json) : Prop :=
  exists fields, entry = JObj fields /\ dict_get "name" fields = Some name.

(** A host that reports its counters as integers, and never a negative
    number of tokens. *)
Definition integer_counters (net : network) : Prop :=
  forall tr ev r fields,
    net tr ev = Answer r ->
    body r = Some (JObj fields) ->
    (forall count, dict_get "eval_count" fields = Some count ->
                   exists z, count = JInt z /\ 0 <= z) /\
    (forall duration, dict_get "eval_duration" fields = Some duration ->
                      exists z, duration = JInt z).

(** A float whose sign bit is clear: [0.0], a positive number or plus
    infinity. *)
Definition unsigned (x : spec_float) : Prop :=
  match x with
  | S754_zero false | S754_finite false _ _ | S754_infinity false => True
  | _ => False
  end.

(** Every entry of a result satisfies [P]. *)
Definition all_entries (P : bench_result -> Prop) (stats : dict (dict bench_result)) : Prop :=
  forall ip data name v, In (ip, data) stats -> In (name, v) data -> P v.

Definition is_marker (v : bench_result) : Prop :=
  match v with
  | Marker _ => True
  | Tps _ => False
  end.

Definition not_nan_result (v : bench_result) : Prop :=
  match v with
  | Tps x => Float64.is_nan x = false
  | Marker _ => True
  end.

(** ** Scenarios of discovery and of the benchmark *)

(** A status of the mesh: the local node and two peers, each with an IPv4
    and another address; the second peer repeats the address of the local
    node. *)
Definition mesh_self : json :=
  JObj [("TailscaleIPs", JArr (map JStr ["100.64.0.1"; "fd7a:115c::1"]))]%string.

Definition mesh_peers : list (string * json) :=
  [("nodekey:a", JObj [("TailscaleIPs", JArr (map JStr ["100.64.0.2"; "fd7a:115c::2"]))]);
   ("nodekey:b", JObj [("TailscaleIPs", JArr (map JStr ["100.64.0.1"; "192.168.1.5"]))])]%string.

Definition mesh_top : list (string * json) :=
  [("Self", mesh_self); ("Peer", JObj mesh_peers)]%string.

Definition mesh_status : run_outcome := Completed 0 (Some (JObj mesh_top)).





(** Only ["100.64.0.2"] accepts the connection; the others refuse it. *)
Definition one_open : prober :=
  fun ip => if String.eqb ip "100.64.0.2" then Connected 0 else Connected 111.

(** The tags of a host whose second model has no name. *)
Definition nameless_entry : json := JObj [("model", JStr "phi3")]%string.

Definition nameless_response : response :=
  {| status_code := 200;
     body := Some (JObj [("models", JArr [JObj [("name", JStr "llama3")];
                                          nameless_entry])]%string) |}.

Definition nameless_net : network := fun _ _ => Answer nameless_response.

(** Every response reports 100 tokens in two seconds. *)
Definition steady_net : network := fun _ _ => generation 100 2000000000.


Definition no_run_args : Args :=
  {| runs := 0; cooldown := 0; timeout_load := 300; timeout_bench := 60;
     workers := 10 |}.

(** * Properties *)

(** ** Rounding to binary64 *)

Module Float64Facts.
Import Float64.

(** Values computed by the interpreter and by the reference division of
    the standard library, as checks of the model. *)

Example of_int_1e9 : of_int 1000000000 = Ok (S754_finite false 8388608000000000 (-23)).
Proof. reflexivity. Qed.

Example third_is_nearest : round_Q (1 # 3) = S754_finite false 6004799503160661 (-54).
Proof. reflexivity. Qed.

Example div_is_SFdiv_50_3 :
  div (S754_finite false 7036874417766400 (-47)) (S754_finite false 6755399441055744 (-51))
  = SFdiv prec emax (S754_finite false 7036874417766400 (-47))
      (S754_finite false 6755399441055744 (-51)).
Proof. vm_compute. reflexivity. Qed.

Example div_is_SFdiv_subnormal :
  div (S754_finite false 5 (-1074)) (S754_finite false 6755399441055744 (-51))
  = SFdiv prec emax (S754_finite false 5 (-1074))
      (S754_finite false 6755399441055744 (-51)).
Proof. vm_compute. reflexivity. Qed.

Example div_overflows_to_infinity :
  match of_int (10 ^ 300), of_int 1 with
  | Ok count, Ok one =>
      div count (div one (S754_finite false 8388608000000000 (-23)))
  | _, _ => S754_nan
  end = S754_infinity false.
Proof. vm_compute. reflexivity. Qed.

Example of_int_too_large : of_int (10 ^ 400) = Raise OverflowError.
Proof. vm_compute. reflexivity. Qed.

Example round2_ties_to_even :
  round2 (S754_finite false 4503599627370496 (-55))
  = Ok (S754_finite false 8646911284551352 (-56)).
Proof. vm_compute. reflexivity. Qed.

Example round2_27_877 :
  round2 (S754_finite false 7846896850744843 (-48))
  = Ok (S754_finite false 7847522350693089 (-48)).
Proof. vm_compute. reflexivity. Qed.

Example round2_keeps_sign_of_zero :
  round2 (S754_finite true 4611686018427388 (-62)) = Ok (S754_zero true).
Proof. vm_compute. reflexivity. Qed.





(** [rne_div a b] is an integer nearest to [a / b]. *)
Lemma rne_div_nearest (a b : Z) :
  0 < b -> - b <= 2 * a - 2 * b * rne_div a b <= b.
Proof.
  intros Hb. unfold rne_div.
  pose proof (Z.div_mod a b ltac:(lia)) as Hdm.
  pose proof (Z.mod_pos_bound a b Hb) as Hr.
  destruct (Z.compare_spec (2 * (a mod b)) b) as [Heq | Hlt | Hgt];
    [destruct (Z.even (a / b)) | |]; nia.
Qed.











Lemma round_ratio_not_nan (s : bool) (n d : Z) :
  is_nan (round_ratio s n d) = false.
Proof.
  unfold round_ratio. destruct n; trivial.
  destruct (round_pos _ d) as [m e]. unfold make_float.
  destruct m; trivial. now destruct (e <=? etop).
Qed.












End Float64Facts.

(** ** [statistics.mean] *)

Module StatisticsFacts.
Import Float64 Float64Facts.

Example mean_of_three :
  statistics_mean [S754_finite false 7036874417766400 (-47);
                   S754_finite false 4686558362232422 (-47);
                   S754_finite false 6004799503160661 (-54)]
  = Ok (S754_finite false 7846896850744843 (-48)).
Proof. vm_compute. reflexivity. Qed.

Example mean_of_opposite_infinities :
  statistics_mean [S754_infinity false; S754_finite false 1 0; S754_infinity true]
  = Ok S754_nan.
Proof. vm_compute. reflexivity. Qed.

Lemma exact_sum_fold (l : list spec_float) (acc : Q) :
  (fold_left (fun a x => a + to_Q x) l acc == acc + exact_sum l)%Q.
Proof.
  unfold exact_sum. revert acc.
  induction l as [| x l IH]; intros acc; cbn.
  - lra.
  - rewrite (IH (acc + to_Q x)%Q), (IH (0 + to_Q x)%Q). lra.
Qed.

Lemma exact_sum_cons (x : spec_float) (l : list spec_float) :
  (exact_sum (x :: l) == to_Q x + exact_sum l)%Q.
Proof.
  unfold exact_sum at 1. cbn. rewrite exact_sum_fold. lra.
Qed.



Lemma special_step_non_finite (acc : option spec_float) (x : spec_float) :
  non_finite_acc acc -> non_finite_acc (special_step acc x).
Proof.
  intros Hacc. unfold special_step. destruct (is_finite x) eqn:Hx; [exact Hacc |].
  destruct acc as [t |]; cbn; [| exact Hx]. cbn in Hacc.
  destruct t as [| [|] | |], x as [| [|] | |]; try discriminate; reflexivity.
Qed.



Lemma special_fold_none (l : list spec_float) :
  forall acc,
    fold_left special_step l acc = None ->
    acc = None /\ forallb is_finite l = true.
Proof.
  induction l as [| x l IH]; intros acc H; cbn in *; [now split |].
  destruct (IH _ H) as [Hacc Hl]. rewrite Hl.
  unfold special_step in Hacc.
  destruct (is_finite x); [now split |].
  destruct acc; discriminate.
Qed.

Lemma special_sum_none (l : list spec_float) :
  special_sum l = None -> forallb is_finite l = true.
Proof. intros H. now destruct (special_fold_none l None H). Qed.



Lemma exact_sum_perm (l l' : list spec_float) :
  Permutation l l' -> (exact_sum l == exact_sum l')%Q.
Proof.
  induction 1 as [| x l l' _ IH | x y l | l l' l'' _ IH1 _ IH2].
  - reflexivity.
  - now rewrite !exact_sum_cons, IH.
  - rewrite !exact_sum_cons. lra.
  - now rewrite IH1.
Qed.

Lemma special_step_swap (acc : option spec_float) (x y : spec_float) :
  non_finite_acc acc ->
  special_step (special_step acc x) y = special_step (special_step acc y) x.
Proof.
  intros Hacc. unfold special_step.
  destruct (is_finite x) eqn:Hx, (is_finite y) eqn:Hy; try reflexivity.
  destruct acc as [t |]; cbn in Hacc.
  - destruct t as [| [|] | |], x as [| [|] | |], y as [| [|] | |];
      try discriminate; reflexivity.
  - destruct x as [| [|] | |], y as [| [|] | |]; try discriminate; reflexivity.
Qed.

Lemma special_fold_perm (l l' : list spec_float) :
  Permutation l l' ->
  forall acc, non_finite_acc acc ->
    fold_left special_step l acc = fold_left special_step l' acc.
Proof.
  induction 1 as [| x l l' _ IH | x y l | l l' l'' _ IH1 _ IH2];
    intros acc Hacc; cbn [fold_left].
  - reflexivity.
  - apply IH. now apply special_step_non_finite.
  - now rewrite special_step_swap.
  - now rewrite IH1, IH2.
Qed.

Lemma special_sum_perm (l l' : list spec_float) :
  Permutation l l' -> special_sum l = special_sum l'.
Proof. intros H. exact (special_fold_perm l l' H None I). Qed.

Lemma statistics_mean_perm (l l' : list spec_float) :
  Permutation l l' -> statistics_mean l = statistics_mean l'.
Proof.
  intros H. unfold statistics_mean.
  rewrite (Permutation_length H), (special_sum_perm l l' H).
  destruct (Z.of_nat (List.length l') <? 1); [reflexivity |].
  destruct (special_sum l'); [reflexivity |].
  f_equal. apply Qred_complete. now rewrite (exact_sum_perm l l' H).
Qed.

Lemma aggregate_perm (l l' : list spec_float) :
  Permutation l l' -> aggregate l = aggregate l'.
Proof.
  intros H. unfold aggregate.
  destruct l as [| x l].
  - apply Permutation_nil in H. now subst.
  - destruct l' as [| x' l'];
      [apply Permutation_sym, Permutation_nil in H; discriminate |].
    now rewrite (statistics_mean_perm _ _ H).
Qed.

End StatisticsFacts.

(** ** The measurement protocol of one (host, model) pair *)

Section Protocol.

Variable net : network.
Variables ip_ model_ : string.
Variable args : Args.

Local Abbreviation url := (generate_url ip_).
Local Abbreviation payload := (payload_of model_).
Local Abbreviation warm_ev := (warmup_request ip_ model_ args).
Local Abbreviation run_ev := (measured_request ip_ model_ args).

Lemma measured_run_spec (samples : list spec_float) (tr : list event) :
  measured_run net url payload args samples tr =
  (Ok (samples ++ collected (net tr run_ev)), run_ev :: tr).
Proof.
  unfold measured_run, bind, attempt, requests_post, request, lift, ret.
  fold run_ev.
  destruct (net tr run_ev) as [r | e]; cbn.
  - destruct (sample_of r) as [[tps | ] | e]; cbn;
      now rewrite ?app_nil_r.
  - now rewrite app_nil_r.
Qed.

Lemma measured_runs_spec (n : nat) :
  forall samples tr,
    measured_runs net url payload args n samples tr =
    (Ok (samples ++ flat_map collected (run_outcomes net run_ev n tr)),
     repeat run_ev n ++ tr).
Proof.
  induction n as [| n IH]; intros samples tr; cbn.
  - unfold ret. now rewrite app_nil_r.
  - unfold bind. rewrite measured_run_spec, IH, <- app_assoc.
    f_equal.
    change (run_ev :: tr) with ([run_ev] ++ tr).
    now rewrite app_assoc, <- repeat_cons.
Qed.

Lemma posts_app (tr1 tr2 : list event) :
  posts (tr1 ++ tr2) = (posts tr1 + posts tr2)%nat.
Proof. unfold posts. now rewrite filter_app, length_app. Qed.

Lemma posts_repeat (n : nat) :
  posts (repeat run_ev n) = n.
Proof.
  unfold posts. induction n as [| n IH]; cbn; [reflexivity | now rewrite IH].
Qed.

Lemma benchmarkSingleModel_warm (tr : list event) (r : response) :
  net tr warm_ev = Answer r ->
  benchmarkSingleModel net ip_ model_ args tr =
  (aggregate (samples_of_pair net ip_ model_ args tr),
   repeat run_ev (Z.to_nat (runs args)) ++ warm_ev :: tr).
Proof.
  intros Hw. unfold benchmarkSingleModel, bind, attempt, requests_post, request.
  fold url. fold warm_ev. rewrite Hw.
  now rewrite measured_runs_spec.
Qed.

Lemma benchmarkSingleModel_cold (tr : list event) (e : exn) :
  net tr warm_ev = Error e ->
  benchmarkSingleModel net ip_ model_ args tr =
  (Ok FailedWarmup, warm_ev :: tr).
Proof.
  intros Hw. unfold benchmarkSingleModel, bind, attempt, requests_post, request.
  fold url. fold warm_ev. now rewrite Hw.
Qed.

Lemma aggregate_not_warmup (samples : list spec_float) :
  aggregate samples <> Ok FailedWarmup.
Proof.
  destruct samples as [| x l]; cbn; [discriminate |].
  destruct (statistics_mean (x :: l)) as [mu | e]; cbn; [| discriminate].
  destruct (Float64.round2 mu); cbn; discriminate.
Qed.

(** C2. When the warm-up request raises (a transport error or a timeout),
    [benchmarkSingleModel] returns the marker ["Failed (Warmup)"], and the
    warm-up is the only request it has issued: no measured request, for
    any number of runs. *)
Theorem warmup_failure_skips_measured_runs (tr : list event) (e : exn) :
  net tr warm_ev = Error e ->
  benchmarkSingleModel net ip_ model_ args tr = (Ok FailedWarmup, warm_ev :: tr) /\
  posts (warm_ev :: tr) = S (posts tr).
Proof.
  intros Hw. split.
  - exact (benchmarkSingleModel_cold tr e Hw).
  - reflexivity.
Qed.

(** C9. A warm-up request that receives a response, whatever its status
    code, is not a warm-up failure: the result is not ["Failed (Warmup)"],
    the [runs] measured requests are issued after the warm-up, and the
    result is aggregated from their samples.  (An outcome is a response or
    a raised error, so only a raised error yields the marker.) *)
Theorem warmup_response_proceeds (tr : list event) (r : response) :
  net tr warm_ev = Answer r ->
  let '(result, tr') := benchmarkSingleModel net ip_ model_ args tr in
  result <> Ok FailedWarmup /\
  result = aggregate (samples_of_pair net ip_ model_ args tr) /\
  tr' = repeat run_ev (Z.to_nat (runs args)) ++ warm_ev :: tr /\
  posts tr' = (Z.to_nat (runs args) + S (posts tr))%nat.
Proof.
  intros Hw. rewrite (benchmarkSingleModel_warm tr r Hw).
  repeat split.
  - apply aggregate_not_warmup.
  - now rewrite posts_app, posts_repeat.
Qed.

(** C10. A measured run whose response has status 200 and a strictly
    positive [eval_duration] but no [eval_count] raises [KeyError] inside
    the run: the run appends no sample and returns normally, all the runs
    are still issued, and the pair is aggregated from the samples of the
    other runs (["Failed"] when there is none). *)
Theorem missing_eval_count_is_contained (r : response)
    (fields : list (string * json)) (duration : json) :
  status_code r = 200 ->
  body r = Some (JObj fields) ->
  dict_get "eval_duration" fields = Some duration ->
  json_gt0 duration = Ok true ->
  dict_get "eval_count" fields = None ->
  sample_of r = Raise KeyError /\
  (forall samples tr,
      net tr run_ev = Answer r ->
      measured_run net url payload args samples tr = (Ok samples, run_ev :: tr)) /\
  (forall tr w before after,
      net tr warm_ev = Answer w ->
      run_outcomes net run_ev (Z.to_nat (runs args)) (warm_ev :: tr)
        = before ++ Answer r :: after ->
      benchmarkSingleModel net ip_ model_ args tr =
      (aggregate (flat_map collected before ++ flat_map collected after),
       repeat run_ev (Z.to_nat (runs args)) ++ warm_ev :: tr)) /\
  aggregate [] = Ok Failed.
Proof.
  intros Hst Hbody Hdur Hpos Hcnt.
  assert (Hs : sample_of r = Raise KeyError).
  { unfold sample_of, resp_json. rewrite Hst, Hbody. cbn.
    rewrite Hdur. cbn. rewrite Hpos. cbn. now rewrite Hcnt. }
  repeat split.
  - exact Hs.
  - intros samples tr Hn. rewrite measured_run_spec, Hn. cbn.
    now rewrite Hs, app_nil_r.
  - intros tr w before after Hw Hruns.
    rewrite (benchmarkSingleModel_warm tr w Hw). unfold samples_of_pair.
    rewrite Hruns, flat_map_app. cbn. now rewrite Hs.
Qed.

End Protocol.

(** ** Samples *)

Lemma json_is_zero_not_positive (v : json) :
  json_is_zero v = true -> json_gt0 v = Ok false.
Proof. destruct v as [| | [| |] | [| | |] | | |]; cbn; try discriminate; reflexivity. Qed.

(** A response whose [eval_duration] is absent, or is a number that is not
    positive. *)
Lemma sample_of_no_duration (r : response) (fields : list (string * json)) :
  body r = Some (JObj fields) ->
  dict_get "eval_duration" fields = None \/
  (exists duration,
      dict_get "eval_duration" fields = Some duration /\
      json_gt0 duration = Ok false) ->
  sample_of r = Ok None.
Proof.
  intros Hbody Hdur. unfold sample_of, resp_json. rewrite Hbody.
  destruct (status_code r =? 200); [| reflexivity]. cbn.
  destruct Hdur as [-> | (duration & -> & Hpos)]; [reflexivity |].
  cbn. now rewrite Hpos.
Qed.

Lemma sample_of_inv (r : response) (tps : spec_float) :
  sample_of r = Ok (Some tps) ->
  status_code r = 200 /\
  exists data duration count seconds,
    body r = Some data /\
    json_get data "eval_duration" (JInt 0) = Ok duration /\
    json_gt0 duration = Ok true /\
    json_getitem data "eval_count" = Ok count /\
    json_getitem data "eval_duration" = Ok duration /\
    json_truediv duration f1e9 = Ok seconds /\
    json_truediv count seconds = Ok tps.
Proof.
  unfold sample_of, resp_json. intros H.
  destruct (status_code r =? 200) eqn:Hst; [| discriminate].
  apply Z.eqb_eq in Hst. split; [exact Hst |].
  destruct (body r) as [data |]; [| discriminate]. cbn in H.
  destruct (json_get data "eval_duration" (JInt 0)) as [duration | ] eqn:Hget;
    [| discriminate]. cbn in H.
  destruct (json_gt0 duration) as [[|] | ] eqn:Hpos; try discriminate. cbn in H.
  destruct (json_getitem data "eval_count") as [count | ] eqn:Hcnt;
    [| discriminate]. cbn in H.
  destruct (json_getitem data "eval_duration") as [duration' | ] eqn:Hitem;
    [| discriminate]. cbn in H.
  assert (duration' = duration) as ->.
  { destruct data; try discriminate. cbn in Hget, Hitem.
    destruct (dict_get "eval_duration" fields); [congruence | discriminate]. }
  destruct (json_truediv duration f1e9) as [seconds | ] eqn:Hsec;
    [| discriminate]. cbn in H.
  destruct (json_truediv count seconds) as [t | ] eqn:Htps; [| discriminate].
  cbn in H. injection H as <-.
  exists data, duration, count, seconds. now repeat split.
Qed.

Lemma collected_zero_duration (outcomes : list outcome) :
  Forall reports_zero_duration outcomes ->
  flat_map collected outcomes = [] /\
  Forall (fun o => forall r, o = Answer r -> sample_of r = Ok None) outcomes.
Proof.
  induction 1 as [| o l (r & fields & duration & -> & Hbody & Hdur & Hz) _ [IHs IHo]];
    cbn.
  - split; constructor.
  - assert (Hs : sample_of r = Ok None).
    { apply (sample_of_no_duration r fields Hbody). right.
      exists duration. split; [exact Hdur | now apply json_is_zero_not_positive]. }
    rewrite Hs. split; [exact IHs |].
    constructor; [| exact IHo]. now intros r' [= <-].
Qed.

(** C3. A measured run yields a sample only from a response of status 200
    whose [eval_duration] is strictly positive, and the sample is
    [eval_count / (eval_duration / 1e9)]; a response whose duration is
    zero ([0] or [0.0]) or absent yields no sample and raises nothing; and
    when every run of a pair reports [eval_duration = 0], each run ends
    normally without a sample (no [ZeroDivisionError]) and the pair's
    result is ["Failed"]. *)
Theorem throughput_needs_positive_duration :
  (forall r tps,
      sample_of r = Ok (Some tps) ->
      status_code r = 200 /\
      exists data duration count seconds,
        body r = Some data /\
        json_get data "eval_duration" (JInt 0) = Ok duration /\
        json_gt0 duration = Ok true /\
        json_getitem data "eval_count" = Ok count /\
        json_truediv duration f1e9 = Ok seconds /\
        json_truediv count seconds = Ok tps) /\
  (forall r fields,
      body r = Some (JObj fields) ->
      dict_get "eval_duration" fields = None \/
      (exists duration,
          dict_get "eval_duration" fields = Some duration /\
          json_is_zero duration = true) ->
      sample_of r = Ok None) /\
  (forall net ip model args tr w,
      net tr (warmup_request ip model args) = Answer w ->
      let outcomes :=
        run_outcomes net (measured_request ip model args)
          (Z.to_nat (runs args)) (warmup_request ip model args :: tr) in
      Forall reports_zero_duration outcomes ->
      Forall (fun o => forall r, o = Answer r -> sample_of r = Ok None) outcomes /\
      fst (benchmarkSingleModel net ip model args tr) = Ok Failed).
Proof.
  split; [| split].
  - intros r tps H. destruct (sample_of_inv r tps H)
      as (Hst & data & duration & count & seconds & H1 & H2 & H3 & H4 & _ & H5 & H6).
    split; [exact Hst |]. exists data, duration, count, seconds. now repeat split.
  - intros r fields Hbody [Hnone | (duration & Hdur & Hz)];
      apply (sample_of_no_duration r fields Hbody); [now left | right].
    exists duration. split; [exact Hdur | now apply json_is_zero_not_positive].
  - intros net ip model args tr w Hw outcomes Hzero.
    destruct (collected_zero_duration outcomes Hzero) as [Hnone Hok].
    split; [exact Hok |].
    rewrite (benchmarkSingleModel_warm net ip model args tr w Hw).
    unfold samples_of_pair. fold outcomes. now rewrite Hnone.
Qed.

(** ** Aggregation *)

Section Aggregation.
Import Float64 Float64Facts StatisticsFacts.











(** C8. The aggregated result of a list of samples (their mean rounded to
    two decimal places) is the same for every permutation of the list: it
    does not depend on the order in which the runs completed. *)
Theorem aggregation_ignores_order (samples samples' : list spec_float) :
  samples <> [] ->
  Permutation samples samples' ->
  statistics_mean samples = statistics_mean samples' /\
  aggregate samples = aggregate samples'.
Proof.
  intros _ Hperm. split.
  - now apply statistics_mean_perm.
  - now apply aggregate_perm.
Qed.


Lemma benchmarkSingleModel_recorded (net : network) (ip_ model_ : string)
    (args : Args) (tr tr' : list event) (v : bench_result) :
  benchmarkSingleModel net ip_ model_ args tr = (Ok v, tr') -> recorded v.
Proof.
  destruct (net tr (warmup_request ip_ model_ args)) as [w | e] eqn:Hw.
  - rewrite (benchmarkSingleModel_warm net ip_ model_ args tr w Hw).
    intros [= Hagg _]. unfold aggregate in Hagg.
    destruct (samples_of_pair net ip_ model_ args tr) as [| x l].
    + injection Hagg as <-. right. now left.
    + destruct (statistics_mean (x :: l)) as [mu | ]; cbn in Hagg; [| discriminate].
      destruct (round2 mu) as [r | ]; cbn in Hagg; [| discriminate].
      injection Hagg as <-. left. now exists r.
  - rewrite (benchmarkSingleModel_cold net ip_ model_ args tr e Hw).
    intros [= <- _]. right. now right.
Qed.

End Aggregation.

(** ** Dicts *)

Section Dicts.
Context {V : Type}.
Implicit Types (d : dict V) (k : string) (v : V).

Lemma keys_dict_set k v d k' :
  In k' (keys (dict_set k v d)) <-> k' = k \/ In k' (keys d).
Proof.
  induction d as [| [k0 v0] d IH]; cbn.
  - intuition.
  - destruct (String.eqb_spec k k0) as [-> | Hne]; cbn; [intuition |].
    rewrite IH. intuition.
Qed.

Lemma NoDup_dict_set k v d :
  NoDup (keys d) -> NoDup (keys (dict_set k v d)).
Proof.
  induction d as [| [k0 v0] d IH]; cbn; intros Hnd.
  - constructor; [intros [] | constructor].
  - inversion Hnd as [| ? ? Hnotin Hnd']; subst.
    destruct (String.eqb_spec k k0) as [-> | Hne]; cbn.
    + now constructor.
    + constructor; [| now apply IH].
      intros H. apply (keys_dict_set k v d k0) in H.
      destruct H as [-> | H]; [now apply Hne | contradiction].
Qed.

Lemma dict_get_set_same k v d : dict_get k (dict_set k v d) = Some v.
Proof.
  induction d as [| [k0 v0] d IH]; cbn.
  - now rewrite String.eqb_refl.
  - destruct (String.eqb_spec k k0) as [-> | Hne]; cbn.
    + now rewrite String.eqb_refl.
    + destruct (String.eqb_spec k k0); [contradiction | exact IH].
Qed.

Lemma dict_get_set_other k v d k' :
  k' <> k -> dict_get k' (dict_set k v d) = dict_get k' d.
Proof.
  intros Hne. induction d as [| [k0 v0] d IH]; cbn.
  - destruct (String.eqb_spec k' k); [contradiction | reflexivity].
  - destruct (String.eqb_spec k k0) as [-> | Hne0]; cbn.
    + destruct (String.eqb_spec k' k0); [contradiction | reflexivity].
    + now rewrite IH.
Qed.

Lemma dict_get_In k v d : dict_get k d = Some v -> In (k, v) d.
Proof.
  induction d as [| [k0 v0] d IH]; cbn; [discriminate |].
  destruct (String.eqb_spec k k0) as [-> | Hne].
  - intros [= ->]. now left.
  - intros H. right. now apply IH.
Qed.


Lemma In_dict_get k v d : NoDup (keys d) -> In (k, v) d -> dict_get k d = Some v.
Proof.
  induction d as [| [k0 v0] d IH]; cbn; [intros _ [] |].
  intros Hnd Hin. inversion Hnd as [| ? ? Hnotin Hnd']; subst.
  destruct Hin as [[= -> ->] | Hin].
  - now rewrite String.eqb_refl.
  - destruct (String.eqb_spec k k0) as [-> | Hne]; [| now apply IH].
    exfalso. apply Hnotin. apply (in_map fst) in Hin. exact Hin.
Qed.

End Dicts.

(** ** Worker pools *)

Lemma as_completed_seq {A : Type} (pre l : list A) :
  as_completed (seq (List.length pre) (List.length l)) (pre ++ l) = l.
Proof.
  unfold as_completed. revert pre.
  induction l as [| a l IH]; intros pre; cbn; [reflexivity |].
  rewrite nth_error_app2 by lia. rewrite Nat.sub_diag. cbn. f_equal.
  specialize (IH (pre ++ [a])). rewrite length_app, <- app_assoc in IH.
  cbn in IH. rewrite Nat.add_1_r in IH. exact IH.
Qed.

Lemma as_completed_perm {A : Type} (order : list nat) (futures : list A) :
  Permutation order (seq 0 (List.length futures)) ->
  Permutation (as_completed order futures) futures.
Proof.
  intros H. rewrite <- (as_completed_seq [] futures) at 2.
  unfold as_completed. now apply Permutation_flat_map.
Qed.

Lemma submit_all_length {A B : Type} (task : network -> A -> M B)
    (nets : nat -> network) (l : list A) :
  forall i, List.length (submit_all task nets i l) = List.length l.
Proof. induction l as [| a l IH]; intros i; cbn; [reflexivity | now rewrite IH]. Qed.

Lemma submit_all_Forall2 {A B : Type} (task : network -> A -> M B)
    (nets : nat -> network) (l : list A) :
  forall i,
    Forall2 (fun a f => exists j, f = submit (task (nets j) a))
      l (submit_all task nets i l).
Proof.
  induction l as [| a l IH]; intros i; cbn; constructor; [now exists i | apply IH].
Qed.

Lemma submit_all_nth {A B : Type} (task : network -> A -> M B)
    (nets : nat -> network) (l : list A) :
  forall i j a,
    nth_error l j = Some a ->
    nth_error (submit_all task nets i l) j = Some (submit (task (nets (i + j)%nat) a)).
Proof.
  induction l as [| a0 l IH]; intros i j a H; destruct j; cbn in *; try discriminate.
  - injection H as ->. now rewrite Nat.add_0_r.
  - rewrite (IH (S i) j a H). now rewrite Nat.add_succ_r.
Qed.

(** ** The models of one host *)

Lemma benchmark_models_ok (net : network) (ip_ : string) (args : Args)
    (models : list string) :
  forall results tr results' tr',
    benchmark_models net ip_ args models results tr = (Ok results', tr') ->
    (forall k, In k (keys results') <-> In k (keys results) \/ In k models) /\
    (NoDup (keys results) -> NoDup (keys results')) /\
    (forall k v, dict_get k results' = Some v ->
                 recorded v \/ dict_get k results = Some v).
Proof.
  induction models as [| model_ rest IH]; intros results tr results' tr' H.
  - cbn in H. injection H as <- <-. cbn. repeat split; tauto.
  - cbn [benchmark_models] in H. unfold bind at 1 in H.
    destruct (benchmarkSingleModel net ip_ model_ args tr) as [[v | e] tr1] eqn:Hb;
      [| discriminate].
    unfold bind at 1 in H.
    destruct (time_sleep (cooldown args) tr1) as [[[] | e] tr2]; [| discriminate].
    destruct (IH _ _ _ _ H) as (Hk & Hnd & Hv).
    apply benchmarkSingleModel_recorded in Hb.
    split; [| split].
    + intros k. rewrite Hk, keys_dict_set. cbn. intuition.
    + intros Hn. apply Hnd. now apply NoDup_dict_set.
    + intros k v' Hget. destruct (Hv k v' Hget) as [Hr | Hold]; [now left |].
      destruct (String.eqb_spec k model_) as [-> | Hne].
      * rewrite dict_get_set_same in Hold. injection Hold as <-. now left.
      * rewrite dict_get_set_other in Hold by exact Hne. now right.
Qed.


Lemma processHostBenchmarks_ok (net : network) (args : Args)
    (host : string * list string) (tr tr' : list event)
    (item : string * dict bench_result) :
  processHostBenchmarks net args host tr = (Ok item, tr') ->
  fst item = fst host /\ host_data_ok (snd host) (snd item).
Proof.
  destruct host as [ip_ models]. unfold processHostBenchmarks, bind.
  destruct (benchmark_models net ip_ args models [] tr) as [[data | e] tr1] eqn:Hb;
    [| discriminate].
  intros [= <- _]. cbn. split; [reflexivity |].
  destruct (benchmark_models_ok _ _ _ _ _ _ _ _ Hb) as (Hk & Hnd & Hv).
  split; [| split].
  - apply Hnd. constructor.
  - intros m. rewrite Hk. cbn. tauto.
  - intros m v Hget. destruct (Hv m v Hget) as [Hr | Hold]; [exact Hr | discriminate].
Qed.


(** ** Collecting the completed tasks *)

Section StoreAll.
Context {V : Type}.



Lemma store_all_other (items : list (string * V)) :
  forall acc k,
    ~ In k (map fst items) ->
    dict_get k (store_all items acc) = dict_get k acc.
Proof.
  induction items as [| [k0 v0] items IH]; intros acc k Hnot; [reflexivity |].
  cbn in Hnot.
  change (store_all ((k0, v0) :: items) acc)
    with (store_all items (dict_set k0 v0 acc)).
  rewrite IH by tauto. apply dict_get_set_other. intros ->. tauto.
Qed.

Lemma store_all_get (items : list (string * V)) :
  forall acc k v,
    NoDup (map fst items) -> In (k, v) items ->
    dict_get k (store_all items acc) = Some v.
Proof.
  induction items as [| [k0 v0] items IH]; intros acc k v Hnd Hin; [destruct Hin |].
  cbn in Hnd. inversion Hnd as [| ? ? Hnotin Hnd']; subst.
  destruct Hin as [[= -> ->] | Hin].
  - change (store_all ((k, v) :: items) acc)
      with (store_all items (dict_set k v acc)).
    rewrite store_all_other by exact Hnotin. apply dict_get_set_same.
  - change (store_all ((k0, v0) :: items) acc)
      with (store_all items (dict_set k0 v0 acc)).
    now apply IH.
Qed.

End StoreAll.

Lemma runRobustBenchmarks_collect_ok
    (done : list (res (string * dict bench_result))) :
  forall acc stats,
    runRobustBenchmarks_collect done acc = Ok stats ->
    exists items, done = map Ok items /\ stats = store_all items acc.
Proof.
  induction done as [| [[ip_ data] | e] done IH]; intros acc stats H; cbn in H.
  - injection H as <-. now exists [].
  - destruct (IH _ _ H) as (items & -> & ->). now exists ((ip_, data) :: items).
  - discriminate.
Qed.

Lemma runRobustBenchmarks_collect_total
    (items : list (string * dict bench_result)) :
  forall acc, runRobustBenchmarks_collect (map Ok items) acc = Ok (store_all items acc).
Proof.
  induction items as [| [ip_ data] items IH]; intros acc; cbn; [reflexivity |].
  now rewrite IH.
Qed.

(** ** The orchestrator *)


Lemma host_futures_items (nets : nat -> network) (args : Args)
    (items : list (string * dict bench_result)) :
  forall inventory : dict (list string),
    Forall2 (fun host f =>
               exists j, f = submit (processHostBenchmarks (nets j) args host))
      inventory (map Ok items) ->
    Forall2 (fun host item =>
               fst item = fst host /\ host_data_ok (snd host) (snd item))
      inventory items.
Proof.
  induction items as [| item items IH]; intros inventory H; cbn in H;
    inversion H as [| host f inv' fs [j Hj] Hrest]; subst; constructor.
  - unfold submit in Hj.
    destruct (processHostBenchmarks (nets j) args host []) as [r tr'] eqn:Hp.
    cbn in Hj. subst r. exact (processHostBenchmarks_ok _ _ _ _ _ _ Hp).
  - now apply IH.
Qed.

Lemma Forall2_keys {A B : Type} (l : list (string * A)) (l' : list (string * B))
    (R : A -> B -> Prop) :
  Forall2 (fun a b => fst b = fst a /\ R (snd a) (snd b)) l l' ->
  map fst l' = map fst l.
Proof.
  induction 1 as [| a b l l' [Hk _] _ IH]; cbn; [reflexivity | now rewrite Hk, IH].
Qed.



(** ** The inventory *)

Lemma getModelsOnHost_ok (net : network) (ip_ : string) (tr : list event) :
  exists names tr', getModelsOnHost net ip_ tr = (Ok (ip_, names), tr').
Proof.
  unfold getModelsOnHost, bind, attempt, requests_get, request, lift, ret.
  destruct (net tr _) as [resp | e]; [| eauto].
  destruct (raise_for_status resp); [| eauto].
  destruct (resp_json resp) as [data |]; [| eauto].
  destruct (json_get data "models" (JArr [])) as [models |]; [| eauto].
  destruct (json_iter models) as [items |]; [| eauto].
  destruct (mapM_res _ items) as [names |]; eauto.
Qed.

Lemma submit_getModelsOnHost (net : network) (ip_ : string) :
  submit (getModelsOnHost net ip_) = Ok (ip_, host_models net ip_).
Proof.
  unfold host_models, submit.
  destruct (getModelsOnHost_ok net ip_ []) as (names & tr' & ->). reflexivity.
Qed.

Lemma host_models_error (net : network) (ip_ : string) (e : exn) :
  net [] (EvGet (api_url ip_ "11434" "/api/tags") 5) = Error e ->
  host_models net ip_ = [].
Proof.
  intros H. unfold host_models, submit, getModelsOnHost, bind, attempt,
    requests_get, request. now rewrite H.
Qed.

Lemma host_models_http_error (net : network) (ip_ : string) (r : response) :
  net [] (EvGet (api_url ip_ "11434" "/api/tags") 5) = Answer r ->
  400 <= status_code r < 600 ->
  host_models net ip_ = [].
Proof.
  intros H Hst. unfold host_models, submit, getModelsOnHost, bind, attempt,
    requests_get, request, lift, raise_for_status. rewrite H.
  assert (Hb : (400 <=? status_code r) && (status_code r <? 600) = true).
  { apply andb_true_intro. split; [apply Z.leb_le | apply Z.ltb_lt]; lia. }
  now rewrite Hb.
Qed.

Lemma inventory_futures (nets : nat -> network) (hosts : list string) :
  forall i,
    submit_all getModelsOnHost nets i hosts = map Ok (host_answers nets i hosts).
Proof.
  induction hosts as [| ip_ hosts IH]; intros i; cbn; [reflexivity |].
  now rewrite submit_getModelsOnHost, IH.
Qed.

Lemma host_answers_In (nets : nat -> network) (hosts : list string)
    (ip_ : string) (models : list json) :
  forall i,
    In (ip_, models) (host_answers nets i hosts) <->
    exists j, nth_error hosts j = Some ip_ /\ models = host_models (nets (i + j)%nat) ip_.
Proof.
  induction hosts as [| h hosts IH]; intros i; cbn.
  - split; [intros [] | intros (j & Hj & _); destruct j; discriminate].
  - rewrite IH. split.
    + intros [[= -> <-] | (j & Hj & Hm)].
      * exists 0%nat. now rewrite Nat.add_0_r.
      * exists (S j). now rewrite Nat.add_succ_r.
    + intros ([| j] & Hj & Hm); cbn in Hj.
      * left. injection Hj as ->. rewrite Nat.add_0_r in Hm. now subst.
      * right. exists j. now rewrite Nat.add_succ_r in Hm.
Qed.

Lemma In_dict_set {V : Type} (k : string) (v : V) (d : dict V) (k' : string) (v' : V) :
  In (k', v') (dict_set k v d) -> (k', v') = (k, v) \/ In (k', v') d.
Proof.
  induction d as [| [k0 v0] d IH]; cbn.
  - intros [H | []]. now left.
  - destruct (String.eqb_spec k k0) as [-> | Hne]; cbn.
    + intros [H | H]; [now left | right; now right].
    + intros [H | H]; [right; now left |].
      destruct (IH H) as [H' | H']; [now left | right; now right].
Qed.

Lemma mapNetwork_collect_spec (items : list (string * list json)) :
  forall acc,
    exists inventory,
      mapNetwork_collect (map Ok items) acc = Ok inventory /\
      (forall k, In k (keys inventory) <->
                 In k (keys acc) \/ exists l, In (k, l) items /\ l <> []) /\
      (forall k l, In (k, l) inventory ->
                   In (k, l) acc \/ (In (k, l) items /\ l <> [])).
Proof.
  induction items as [| [k0 l0] items IH]; intros acc; cbn [map mapNetwork_collect].
  - exists acc. split; [reflexivity |]. split.
    + intros k. split; [now left | intros [H | (l & [] & _)]; exact H].
    + intros k l H. now left.
  - destruct l0 as [| m l0].
    + destruct (IH acc) as (inventory & -> & Hk & Hv).
      exists inventory. split; [reflexivity |]. split.
      * intros k. rewrite Hk. split.
        -- intros [H | (l & Hin & Hne)]; [now left |].
           right. exists l. split; [now right | exact Hne].
        -- intros [H | (l & [[= <- <-] | Hin] & Hne)];
             [now left | congruence | right; now exists l].
      * intros k l H. destruct (Hv k l H) as [H' | [H' Hne]]; [now left |].
        right. split; [now right | exact Hne].
    + destruct (IH (dict_set k0 (m :: l0) acc)) as (inventory & -> & Hk & Hv).
      exists inventory. split; [reflexivity |]. split.
      * intros k. rewrite Hk, keys_dict_set. split.
        -- intros [[-> | H] | (l & Hin & Hne)].
           ++ right. exists (m :: l0). split; [now left | discriminate].
           ++ now left.
           ++ right. exists l. split; [now right | exact Hne].
        -- intros [H | (l & [[= <- <-] | Hin] & Hne)].
           ++ left. now right.
           ++ left. now left.
           ++ right. now exists l.
      * intros k l H. destruct (Hv k l H) as [H' | [H' Hne]].
        -- apply In_dict_set in H'. destruct H' as [[= -> ->] | H'].
           ++ right. split; [now left | discriminate].
           ++ now left.
        -- right. split; [now right | exact Hne].
Qed.

(** C7. The inventory returned by [mapNetwork] maps no host to an empty
    list of models: its hosts are exactly the queried hosts that reported
    at least one model, so a host whose query raised, was answered by an
    HTTP error status, or yielded no model is not a key. *)
Theorem inventory_has_no_empty_host (nets : nat -> network) (order : list nat)
    (hosts : list string) :
  Permutation order (seq 0 (List.length hosts)) ->
  exists inventory,
    mapNetwork nets order hosts = Ok inventory /\
    (forall ip_ models, In (ip_, models) inventory -> models <> []) /\
    (forall ip_, dict_get ip_ inventory <> Some []) /\
    (forall ip_,
        In ip_ (keys inventory) <->
        exists i, nth_error hosts i = Some ip_ /\ host_models (nets i) ip_ <> []) /\
    (forall ip_,
        (forall i, nth_error hosts i = Some ip_ ->
                   (exists e, nets i [] (EvGet (api_url ip_ "11434" "/api/tags") 5)
                              = Error e) \/
                   (exists r, nets i [] (EvGet (api_url ip_ "11434" "/api/tags") 5)
                              = Answer r /\ 400 <= status_code r < 600) \/
                   host_models (nets i) ip_ = []) ->
        ~ In ip_ (keys inventory)).
Proof.
  intros Hperm. unfold mapNetwork.
  assert (Hdone : Permutation
                    (as_completed order (submit_all getModelsOnHost nets 0 hosts))
                    (submit_all getModelsOnHost nets 0 hosts)).
  { apply as_completed_perm. now rewrite submit_all_length. }
  rewrite inventory_futures in Hdone |- *.
  destruct (Permutation_map_inv _ _ Hdone) as (items & Heq & Hp).
  rewrite Heq.
  destruct (mapNetwork_collect_spec items []) as (inventory & Hinv & Hk & Hv).
  exists inventory. split; [exact Hinv |].
  assert (Hval : forall ip_ models, In (ip_, models) inventory -> models <> []).
  { intros ip_ models Hin. destruct (Hv _ _ Hin) as [[] | [_ Hne]]. exact Hne. }
  assert (Hkeys : forall ip_,
             In ip_ (keys inventory) <->
             exists i, nth_error hosts i = Some ip_ /\ host_models (nets i) ip_ <> []).
  { intros ip_. rewrite Hk. cbn. split.
    - intros [[] | (l & Hin & Hne)].
      apply (Permutation_in _ (Permutation_sym Hp)) in Hin.
      apply host_answers_In in Hin as (j & Hj & ->). now exists j.
    - intros (i & Hi & Hne). right. exists (host_models (nets i) ip_).
      split; [| exact Hne].
      apply (Permutation_in _ Hp). apply host_answers_In. now exists i. }
  split; [exact Hval | split; [| split; [exact Hkeys |]]].
  - intros ip_ Hget. apply dict_get_In in Hget. now apply (Hval ip_ []).
  - intros ip_ Hall Hin. apply Hkeys in Hin as (i & Hi & Hne). apply Hne.
    destruct (Hall i Hi) as [[e He] | [(r & Hr & Hst) | H]].
    + exact (host_models_error _ _ _ He).
    + exact (host_models_http_error _ _ _ Hr Hst).
    + exact H.
Qed.

(** ** The routing table *)

Lemma ascii_compare_lt_trans (a b c : ascii) :
  Ascii.compare a b = Lt -> Ascii.compare b c = Lt -> Ascii.compare a c = Lt.
Proof.
  unfold Ascii.compare. rewrite !N.compare_lt_iff. apply N.lt_trans.
Qed.

Lemma string_compare_lt_trans (s1 : string) :
  forall s2 s3,
    String.compare s1 s2 = Lt -> String.compare s2 s3 = Lt ->
    String.compare s1 s3 = Lt.
Proof.
  induction s1 as [| a s1 IH]; intros [| b s2] [| c s3]; cbn; try easy.
  destruct (Ascii.compare a b) eqn:Hab; try discriminate;
    destruct (Ascii.compare b c) eqn:Hbc; try discriminate; intros H1 H2.
  - apply Ascii.compare_eq_iff in Hab, Hbc. subst.
    assert (Hcc : Ascii.compare c c = Eq)
      by (unfold Ascii.compare; apply N.compare_refl).
    rewrite Hcc. now apply (IH s2).
  - apply Ascii.compare_eq_iff in Hab. subst. now rewrite Hbc.
  - apply Ascii.compare_eq_iff in Hbc. subst. now rewrite Hab.
  - now rewrite (ascii_compare_lt_trans a b c Hab Hbc).
Qed.

Lemma ascii_compare_refl (a : ascii) : Ascii.compare a a = Eq.
Proof. unfold Ascii.compare. apply N.compare_refl. Qed.

Lemma string_compare_refl (s : string) : String.compare s s = Eq.
Proof.
  induction s as [| a s IH]; cbn; [reflexivity |].
  now rewrite ascii_compare_refl.
Qed.

Lemma Qle_bool_total (a b : Q) : Qle_bool a b = false -> Qle_bool b a = true.
Proof.
  intros H. apply Qle_bool_iff. apply Qlt_le_weak, Qnot_le_lt.
  intros Hle. apply Qle_bool_iff in Hle. congruence.
Qed.

Lemma Qle_bool_trans (a b c : Q) :
  Qle_bool a b = true -> Qle_bool b c = true -> Qle_bool a c = true.
Proof. rewrite !Qle_bool_iff. apply Qle_trans. Qed.

Lemma geb_total (x y : spec_float) :
  Float64.is_nan x = false -> Float64.is_nan y = false ->
  Float64.geb x y = false -> Float64.geb y x = true.
Proof.
  destruct x as [sx | [|] | | sx mx ex], y as [sy | [|] | | sy my ey];
    cbn [Float64.geb Float64.is_nan]; try easy; intros _ _;
    apply Qle_bool_total.
Qed.

Lemma geb_trans (x y z : spec_float) :
  Float64.geb x y = true -> Float64.geb y z = true -> Float64.geb x z = true.
Proof.
  destruct x as [sx | [|] | | sx mx ex], y as [sy | [|] | | sy my ey],
    z as [sz | [|] | | sz mz ez];
    cbn [Float64.geb]; try easy; intros H1 H2;
    exact (Qle_bool_trans _ _ _ H2 H1).
Qed.

Lemma geb_not_nan (x y : spec_float) :
  Float64.geb x y = true -> Float64.is_nan x = false /\ Float64.is_nan y = false.
Proof.
  destruct x as [sx | [|] | | sx mx ex], y as [sy | [|] | | sy my ey];
    cbn [Float64.geb Float64.is_nan]; easy.
Qed.

Lemma tps_before_total (x y : spec_float) :
  tps_before x y = false -> tps_before y x = true.
Proof.
  unfold tps_before.
  destruct (Float64.is_nan x) eqn:Hx, (Float64.is_nan y) eqn:Hy;
    destruct x, y; try discriminate; try reflexivity;
    now apply geb_total.
Qed.

Lemma tps_before_trans (x y z : spec_float) :
  tps_before x y = true -> tps_before y z = true -> tps_before x z = true.
Proof.
  unfold tps_before.
  destruct (Float64.is_nan z) eqn:Hz; [now destruct z, x |].
  destruct (Float64.is_nan y) eqn:Hy; [destruct y, z; discriminate |].
  destruct (Float64.is_nan x) eqn:Hx; [destruct x, y; discriminate |].
  destruct x, y, z; try discriminate; apply geb_trans.
Qed.

Lemma tps_before_geb (x y : spec_float) :
  tps_before x y = true -> Float64.is_nan y = false -> Float64.geb x y = true.
Proof. unfold tps_before. destruct x, y; try discriminate; trivial. Qed.


Lemma row_before_total (r1 r2 : row) :
  row_before r1 r2 = false -> row_before r2 r1 = true.
Proof.
  unfold row_before. rewrite (String.compare_antisym (model r1) (model r2)).
  destruct (String.compare (model r2) (model r1)); cbn; try easy.
  apply tps_before_total.
Qed.

Lemma row_before_trans (r1 r2 r3 : row) :
  row_before r1 r2 = true -> row_before r2 r3 = true -> row_before r1 r3 = true.
Proof.
  unfold row_before.
  destruct (String.compare (model r1) (model r2)) eqn:H12; try discriminate;
    destruct (String.compare (model r2) (model r3)) eqn:H23; try discriminate.
  - apply String.compare_eq_iff in H12. rewrite H12, H23. apply tps_before_trans.
  - apply String.compare_eq_iff in H12. now rewrite H12, H23.
  - apply String.compare_eq_iff in H23. now rewrite <- H23, H12.
  - now rewrite (string_compare_lt_trans _ _ _ H12 H23).
Qed.


Lemma row_before_tps (r1 r2 : row) :
  row_before r1 r2 = true -> model r1 = model r2 ->
  tps_before (tps r1) (tps r2) = true.
Proof.
  unfold row_before. intros H Heq. rewrite Heq, string_compare_refl in H. exact H.
Qed.

(** Insertion and sort *)

Lemma insert_row_perm (r : row) (l : list row) :
  Permutation (insert_row r l) (r :: l).
Proof.
  induction l as [| r' l IH]; cbn; [reflexivity |].
  destruct (row_before r' r); [| reflexivity].
  rewrite IH. apply perm_swap.
Qed.

Lemma insert_row_sorted (r : row) (l : list row) :
  StronglySorted row_le l -> StronglySorted row_le (insert_row r l).
Proof.
  induction 1 as [| r' l Hs IH Hall]; cbn.
  - repeat constructor.
  - destruct (row_before r' r) eqn:Hb.
    + constructor; [exact IH |].
      apply (Permutation_Forall (Permutation_sym (insert_row_perm r l))).
      constructor; [exact Hb | exact Hall].
    + apply row_before_total in Hb.
      constructor; [now constructor |].
      constructor; [exact Hb |].
      apply (Forall_impl _ (fun r'' H => row_before_trans r r' r'' Hb H) Hall).
Qed.

Lemma sort_fold_perm (rows : list row) :
  forall acc,
    Permutation (fold_left (fun sorted r => insert_row r sorted) rows acc)
      (rows ++ acc).
Proof.
  induction rows as [| r rows IH]; intros acc; cbn; [reflexivity |].
  rewrite IH. rewrite insert_row_perm. apply Permutation_sym, Permutation_middle.
Qed.

Lemma sort_fold_sorted (rows : list row) :
  forall acc,
    StronglySorted row_le acc ->
    StronglySorted row_le (fold_left (fun sorted r => insert_row r sorted) rows acc).
Proof.
  induction rows as [| r rows IH]; intros acc Hacc; cbn; [exact Hacc |].
  apply IH. now apply insert_row_sorted.
Qed.

Lemma sort_values_perm (rows : list row) : Permutation (sort_values rows) rows.
Proof. unfold sort_values. rewrite sort_fold_perm. now rewrite app_nil_r. Qed.

Lemma sort_values_sorted (rows : list row) : StronglySorted row_le (sort_values rows).
Proof. apply sort_fold_sorted. constructor. Qed.

Lemma StronglySorted_earlier_later (R : row -> row -> Prop) (table : list row)
    (r1 r2 : row) :
  StronglySorted R table -> earlier_later table r1 r2 -> R r1 r2.
Proof.
  intros Hs (before & between & after & ->).
  induction before as [| b before IH]; cbn in Hs.
  - apply StronglySorted_inv in Hs as [_ Hall].
    rewrite Forall_forall in Hall. apply Hall.
    apply in_or_app. right. now left.
  - apply StronglySorted_inv in Hs as [Hs _]. now apply IH.
Qed.

Lemma rows_are_numeric_entries (stats : dict (dict bench_result)) :
  flat_map rows_of_host stats = map row_of_entry (numeric_entries stats).
Proof.
  unfold numeric_entries.
  induction stats as [| [host models] stats IH]; cbn [flat_map]; [reflexivity |].
  rewrite map_app, <- IH. f_equal. cbn [fst snd rows_of_host].
  induction models as [| [name speed] models IHm]; cbn [flat_map]; [reflexivity |].
  rewrite map_app, <- IHm. now destruct speed.
Qed.

Lemma generateRoutingDataFrame_sort (stats : dict (dict bench_result)) :
  generateRoutingDataFrame stats = sort_values (flat_map rows_of_host stats).
Proof.
  unfold generateRoutingDataFrame. now destruct (flat_map rows_of_host stats).
Qed.

Lemma numeric_entries_In (stats : dict (dict bench_result))
    (host name : string) (v : spec_float) :
  In (host, name, v) (numeric_entries stats) <->
  exists models, In (host, models) stats /\ In (name, Tps v) models.
Proof.
  unfold numeric_entries. rewrite in_flat_map. split.
  - intros ([h models] & Hin & H). cbn [fst snd] in H.
    apply in_flat_map in H as ([n speed] & Hin' & H). cbn [fst snd] in H.
    destruct speed as [v' | s]; [| destruct H].
    destruct H as [[= -> -> ->] | []]. now exists models.
  - intros (models & Hin & Hin'). exists (host, models). split; [exact Hin |].
    apply in_flat_map. exists (name, Tps v). split; [exact Hin' | now left].
Qed.



(** ** Worker threads *)

(** The requests of a task go to its own host. *)





(** Threads and hosts, position by position. *)

















Local Open Scope string_scope.

(** ** Scenarios *)

Lemma warmup_failure_scenario :
  down_net [] (warmup_request "h" "m" extreme_args) = Error Timeout /\
  benchmarkSingleModel down_net "h" "m" extreme_args []
  = (Ok FailedWarmup, [warmup_request "h" "m" extreme_args]) /\
  posts [warmup_request "h" "m" extreme_args] = 1%nat.
Proof.
  split; [reflexivity |].
  exact (warmup_failure_skips_measured_runs down_net "h" "m" extreme_args []
           Timeout eq_refl).
Defined.

Lemma warmup_503_scenario :
  busy_net [] (warmup_request "h" "m" extreme_args)
  = Answer {| status_code := 503; body := None |} /\
  fst (benchmarkSingleModel busy_net "h" "m" extreme_args []) = Ok (Tps f50) /\
  posts (snd (benchmarkSingleModel busy_net "h" "m" extreme_args [])) = 3%nat.
Proof.
  split; [reflexivity |].
  pose proof (warmup_response_proceeds busy_net "h" "m" extreme_args []
                {| status_code := 503; body := None |} eq_refl) as H.
  destruct (benchmarkSingleModel busy_net "h" "m" extreme_args []) as [result tr'].
  destruct H as (_ & Hres & _ & Hposts). cbn [fst snd].
  rewrite Hres, Hposts. split; reflexivity.
Defined.

Lemma missing_eval_count_scenario :
  status_code no_count_response = 200 /\
  body no_count_response = Some (JObj [("eval_duration", JInt 5)]) /\
  dict_get "eval_duration" [("eval_duration", JInt 5)] = Some (JInt 5) /\
  json_gt0 (JInt 5) = Ok true /\
  dict_get "eval_count" [("eval_duration", JInt 5)] = None /\
  sample_of no_count_response = Raise KeyError /\
  benchmarkSingleModel no_count_net "h" "m" extreme_args []
  = (Ok (Tps f50),
     [measured_request "h" "m" extreme_args; measured_request "h" "m" extreme_args;
      warmup_request "h" "m" extreme_args]).
Proof.
  do 5 (split; [reflexivity |]).
  destruct (missing_eval_count_is_contained no_count_net "h" "m" extreme_args
              no_count_response [("eval_duration", JInt 5)] (JInt 5)
              eq_refl eq_refl eq_refl eq_refl eq_refl) as (Hs & _ & Hpair & _).
  split; [exact Hs |].
  exact (Hpair [] {| status_code := 200;
                     body := Some (JObj [("eval_count", JInt 100);
                                         ("eval_duration", JInt 2000000000)]) |}
           [] [generation 100 2000000000] eq_refl eq_refl).
Defined.

Lemma zero_duration_scenario :
  fst (benchmarkSingleModel idle_net "h" "m" extreme_args []) = Ok Failed.
Proof.
  destruct throughput_needs_positive_duration as (_ & _ & H).
  refine (proj2 (H idle_net "h" "m" extreme_args []
                   {| status_code := 200;
                      body := Some (JObj [("eval_count", JInt 0);
                                          ("eval_duration", JInt 0)]) |}
                   eq_refl _)).
  repeat constructor;
    exists {| status_code := 200;
              body := Some (JObj [("eval_count", JInt 0); ("eval_duration", JInt 0)]) |},
      [("eval_count", JInt 0); ("eval_duration", JInt 0)], (JInt 0);
    repeat split.
Defined.


Lemma order_scenario :
  [f50; f33_3; f50] <> [] /\
  Permutation [f50; f33_3; f50] [f33_3; f50; f50] /\
  aggregate [f50; f33_3; f50] = aggregate [f33_3; f50; f50].
Proof.
  assert (Hne : [f50; f33_3; f50] <> []) by discriminate.
  assert (Hp : Permutation [f50; f33_3; f50] [f33_3; f50; f50])
    by apply perm_swap.
  split; [exact Hne |]. split; [exact Hp |].
  exact (proj2 (aggregation_ignores_order _ _ Hne Hp)).
Defined.

Lemma inventory_scenario :
  Permutation [2; 0; 1]%nat (seq 0 (List.length ["a"; "b"; "c"])) /\
  exists inventory,
    mapNetwork (fun _ => tags_net) [2; 0; 1]%nat ["a"; "b"; "c"] = Ok inventory /\
    keys inventory = ["a"] /\
    forall ip_, dict_get ip_ inventory <> Some [].
Proof.
  assert (Hp : Permutation [2; 0; 1]%nat (seq 0 (List.length ["a"; "b"; "c"]))).
  { cbn. apply Permutation_sym.
    apply (perm_trans (l' := [0; 2; 1]%nat));
      [apply perm_skip, perm_swap | apply perm_swap]. }
  split; [exact Hp |].
  destruct (inventory_has_no_empty_host (fun _ => tags_net) [2; 0; 1]%nat
              ["a"; "b"; "c"] Hp) as (inventory & Hinv & _ & Hget & _).
  exists inventory. split; [exact Hinv |]. split; [| exact Hget].
  vm_compute in Hinv. injection Hinv as <-. reflexivity.
Defined.




(** * Further properties *)

(** ** Discovery *)

Local Open Scope list_scope.

Lemma valid_ips_In (items : list json) :
  forall l, valid_ips items = Ok l ->
  forall s, In s l <-> In (JStr s) items /\ mesh_ipv4 s.
Proof.
  unfold mesh_ipv4.
  induction items as [| ip items IH]; cbn [valid_ips]; intros l H s.
  - injection H as <-. cbn. tauto.
  - destruct (valid_ip ip) as [keep | e] eqn:Hk; cbn in H; [| discriminate].
    destruct (valid_ips items) as [ips | e] eqn:Hi; cbn in H; [| discriminate].
    injection H as <-. specialize (IH ips eq_refl s).
    destruct ip as [| b | z | x | s0 | its | fs];
      try (rewrite IH; cbn; split; [intros [H1 H2]; split; [now right | exact H2]
                                   | intros [[H1 | H1] H2]; [discriminate | now split]]).
    cbn in Hk. injection Hk as <-.
    destruct (negb (has_colon s0) && String.prefix "100." s0) eqn:Hv.
    + apply andb_prop in Hv as [Hc Hp]. apply negb_true_iff in Hc.
      cbn. rewrite IH. split.
      * intros [<- | [H1 H2]]; [split; [now left | now split] | split; [now right | exact H2]].
      * intros [[[= ->] | H1] H2]; [now left | right; now split].
    + cbn. rewrite IH. split.
      * intros [H1 H2]. split; [now right | exact H2].
      * intros [[[= ->] | H1] [Hc Hp]]; [| now split].
        rewrite Hc, Hp in Hv. discriminate.
Qed.

Lemma set_add_In (s : string) (ips : list string) (x : string) :
  In x (set_add s ips) <-> In x ips \/ x = s.
Proof.
  unfold set_add. destruct (existsb (String.eqb s) ips) eqn:He.
  - apply existsb_exists in He as (y & Hy & Heq). apply String.eqb_eq in Heq. subst y.
    split; [now left | intros [H | ->]; assumption].
  - rewrite in_app_iff. cbn. intuition.
Qed.

Lemma set_add_NoDup (s : string) (ips : list string) :
  NoDup ips -> NoDup (set_add s ips).
Proof.
  intros Hnd. unfold set_add. destruct (existsb (String.eqb s) ips) eqn:He;
    [exact Hnd |].
  apply NoDup_app; [exact Hnd | repeat constructor; intros [] |].
  intros x Hx [Heq | []]. subst x.
  assert (existsb (String.eqb s) ips = true)
    by (apply existsb_exists; exists s; split; [exact Hx | apply String.eqb_refl]).
  congruence.
Qed.

Lemma set_update_In (new : list string) :
  forall ips x, In x (set_update ips new) <-> In x ips \/ In x new.
Proof.
  unfold set_update.
  induction new as [| s new IH]; intros ips x; cbn; [tauto |].
  rewrite IH, set_add_In. intuition.
Qed.

Lemma set_update_NoDup (new : list string) :
  forall ips, NoDup ips -> NoDup (set_update ips new).
Proof.
  unfold set_update.
  induction new as [| s new IH]; intros ips Hnd; cbn; [exact Hnd |].
  apply IH. now apply set_add_NoDup.
Qed.

Lemma scan_nodes_NoDup (nodes : list json) :
  forall ips, NoDup ips -> NoDup (scan_nodes nodes ips).
Proof.
  induction nodes as [| node nodes IH]; intros ips Hnd; cbn; [exact Hnd |].
  destruct (node_ips node) as [new | e]; [| exact Hnd].
  apply IH. now apply set_update_NoDup.
Qed.

Lemma node_ips_mesh (node : json) (l : list string) (s : string) :
  node_ips node = Ok l -> In s l -> mesh_ipv4 s.
Proof.
  unfold node_ips. intros H Hin.
  destruct (json_get node "TailscaleIPs" (JArr [])) as [v | e]; cbn in H; [| discriminate].
  destruct (json_iter v) as [items | e]; cbn in H; [| discriminate].
  now apply (valid_ips_In items l H s).
Qed.

Lemma scan_nodes_mesh (nodes : list json) :
  forall ips,
    Forall mesh_ipv4 ips -> Forall mesh_ipv4 (scan_nodes nodes ips).
Proof.
  induction nodes as [| node nodes IH]; intros ips Hall; cbn; [exact Hall |].
  destruct (node_ips node) as [new | e] eqn:Hn; [| exact Hall].
  apply IH. apply Forall_forall. intros s Hs.
  apply set_update_In in Hs as [Hs | Hs].
  - rewrite Forall_forall in Hall. now apply Hall.
  - exact (node_ips_mesh node new s Hn Hs).
Qed.

Lemma tailscale_set_mesh (tailscale : run_outcome) :
  NoDup (tailscale_set tailscale) /\ Forall mesh_ipv4 (tailscale_set tailscale).
Proof.
  unfold tailscale_set.
  destruct tailscale as [| e | [| p | p] [data |]];
    try (split; constructor).
  destruct (tailscale_nodes data) as [nodes | e]; [| split; constructor].
  split; [apply scan_nodes_NoDup | apply scan_nodes_mesh]; constructor.
Qed.

(** X1. Every address [getTailscaleIps] returns is an IPv4 address of the
    mesh (no colon, prefix ["100."]), and no address is returned twice,
    whatever the tool printed. *)
Theorem getTailscaleIps_mesh_addresses (tailscale : run_outcome)
    (shuffle : list string -> list string) :
  (forall l, Permutation (shuffle l) l) ->
  NoDup (getTailscaleIps tailscale shuffle) /\
  Forall mesh_ipv4 (getTailscaleIps tailscale shuffle).
Proof.
  intros Hsh. unfold getTailscaleIps.
  destruct (tailscale_set_mesh tailscale) as [Hnd Hall]. split.
  - exact (Permutation_NoDup (Permutation_sym (Hsh _)) Hnd).
  - exact (Permutation_Forall (Permutation_sym (Hsh _)) Hall).
Qed.

Lemma valid_ips_strings (items : list string) :
  exists l, valid_ips (map JStr items) = Ok l.
Proof.
  induction items as [| s items [l IH]]; cbn; [now exists [] |].
  rewrite IH. cbn. eauto.
Qed.

Lemma plain_node_ips (node : json) :
  plain_node node ->
  exists l,
    node_ips node = Ok l /\
    forall s, In s l <-> lists_address node s /\ mesh_ipv4 s.
Proof.
  intros (fields & -> & [Hnone | (items & Hsome)]); unfold node_ips; cbn.
  - rewrite Hnone. cbn. exists []. split; [reflexivity |].
    intros s. split; [intros [] |].
    intros [(fields' & items & [= <-] & Hget & _) _]. congruence.
  - rewrite Hsome. cbn.
    destruct (valid_ips_strings items) as [l Hl]. exists l. split; [exact Hl |].
    intros s. rewrite (valid_ips_In _ l Hl s). split.
    + intros [Hin Hm]. split; [| exact Hm].
      exists fields, items. repeat split; [exact Hsome |].
      apply in_map_iff in Hin as (s' & [= ->] & Hin). exact Hin.
    + intros [(fields' & items' & [= <-] & Hget & Hin) Hm]. split; [| exact Hm].
      rewrite Hsome in Hget. injection Hget as Heq.
      apply in_map_iff. exists s. split; [reflexivity |].
      assert (Hinj : forall a b : list string, map JStr a = map JStr b -> a = b).
      { induction a as [| x a IHa]; intros [| y b] Hab; cbn in Hab;
          try discriminate; [reflexivity |].
        injection Hab as -> Hab. f_equal. now apply IHa. }
      now rewrite (Hinj _ _ Heq).
Qed.

Lemma scan_nodes_In (nodes : list json) :
  Forall plain_node nodes ->
  forall ips s,
    In s (scan_nodes nodes ips) <->
    In s ips \/ ((exists node, In node nodes /\ lists_address node s) /\ mesh_ipv4 s).
Proof.
  induction 1 as [| node nodes Hp _ IH]; intros ips s; cbn [scan_nodes].
  - split; [now left | intros [H | [(node & [] & _) _]]; exact H].
  - destruct (plain_node_ips node Hp) as (l & -> & Hl).
    rewrite IH, set_update_In, Hl. split.
    + intros [[H | [H1 H2]] | [(n & Hn & Ha) Hm]].
      * now left.
      * right. split; [exists node; split; [now left | exact H1] | exact H2].
      * right. split; [exists n; split; [now right | exact Ha] | exact Hm].
    + intros [H | [(n & [<- | Hn] & Ha) Hm]].
      * left. now left.
      * left. right. now split.
      * right. split; [now exists n | exact Hm].
Qed.

(** X2. When the tool exits with code 0 and prints a status whose [Self]
    and peers list their addresses as arrays of strings, the addresses
    returned are exactly the mesh IPv4 addresses listed by the local node
    or by one of the peers. *)
Theorem getTailscaleIps_self_and_peers (top : list (string * json))
    (self : json) (peers : list (string * json))
    (shuffle : list string -> list string) :
  dict_get "Self" top = Some self ->
  dict_get "Peer" top = Some (JObj peers) ->
  Forall plain_node (self :: map snd peers) ->
  (forall l, Permutation (shuffle l) l) ->
  forall s,
    In s (getTailscaleIps (Completed 0 (Some (JObj top))) shuffle) <->
    (lists_address self s \/
     exists name peer, In (name, peer) peers /\ lists_address peer s) /\
    mesh_ipv4 s.
Proof.
  intros Hself Hpeer Hplain Hsh s.
  unfold getTailscaleIps, tailscale_set, tailscale_nodes. cbn.
  rewrite Hself, Hpeer. cbn.
  assert (Hiff : In s (shuffle (scan_nodes (self :: map snd peers) [])) <->
                 In s (scan_nodes (self :: map snd peers) [])).
  { split; apply Permutation_in; [apply Hsh | apply Permutation_sym, Hsh]. }
  rewrite Hiff, (scan_nodes_In _ Hplain [] s). split.
  - intros [[] | [(node & [<- | Hin] & Ha) Hm]]; split; try exact Hm.
    + now left.
    + right. apply in_map_iff in Hin as ([name peer] & <- & Hin).
      now exists name, peer.
  - intros [[Ha | (name & peer & Hin & Ha)] Hm]; right; split; try exact Hm.
    + exists self. split; [now left | exact Ha].
    + exists peer. split; [right | exact Ha].
      apply in_map_iff. now exists (name, peer).
Qed.



(** ** Probing *)

Lemma findActiveHosts_collect_spec (done : list (option string)) :
  forall acc, findActiveHosts_collect done acc = acc ++ appended done.
Proof.
  induction done as [| [ip |] done IH]; intros acc; cbn.
  - now rewrite app_nil_r.
  - destruct (String.eqb ip ""); rewrite IH; [reflexivity |].
    now rewrite <- app_assoc.
  - apply IH.
Qed.

Lemma mesh_ipv4_not_empty (s : string) : mesh_ipv4 s -> String.eqb s "" = false.
Proof. intros [_ Hp]. destruct s; [discriminate | reflexivity]. Qed.

Lemma appended_cons (probes : nat -> prober) (k : nat) (c : string)
    (candidates : list string) :
  mesh_ipv4 c ->
  appended (submit_probes probes k (c :: candidates))
  = match probes k c with
    | Connected 0 => [c]
    | _ => []
    end ++ appended (submit_probes probes (S k) candidates).
Proof.
  intros Hc. apply mesh_ipv4_not_empty in Hc.
  cbn [submit_probes appended flat_map]. unfold checkOllamaPort.
  destruct (probes k c) as [[| p | p] | e]; try reflexivity.
  now rewrite Hc.
Qed.

Lemma In_open_here (probes : nat -> prober) (k : nat) (c ip : string) :
  In ip match probes k c with
        | Connected 0 => [c]
        | _ => []
        end <-> ip = c /\ probes k c = Connected 0.
Proof.
  destruct (probes k c) as [[| p | p] | e]; cbn; split; try tauto;
    try (intros [_ H]; discriminate).
  - intros [<- | []]. now split.
  - intros [-> _]. now left.
Qed.

Lemma appended_probes (probes : nat -> prober) (candidates : list string) :
  forall k,
    Forall mesh_ipv4 candidates ->
    (forall ip,
        In ip (appended (submit_probes probes k candidates)) <->
        exists i, nth_error candidates i = Some ip /\
                  probes (k + i)%nat ip = Connected 0) /\
    (NoDup candidates -> NoDup (appended (submit_probes probes k candidates))) /\
    incl (appended (submit_probes probes k candidates)) candidates.
Proof.
  induction candidates as [| c candidates IH]; intros k Hall.
  - cbn. split; [| split; [constructor | intros x []]].
    intros ip. split; [intros [] | intros ([| i] & Hi & _); discriminate].
  - inversion Hall as [| ? ? Hc Hall']; subst.
    destruct (IH (S k) Hall') as (Hin & Hnd & Hincl).
    rewrite (appended_cons probes k c candidates Hc).
    split; [| split].
    + intros ip. rewrite in_app_iff, In_open_here, Hin. split.
      * intros [[-> Hp] | (i & Hi & Hpi)].
        -- exists 0%nat. now rewrite Nat.add_0_r.
        -- exists (S i). now rewrite Nat.add_succ_r.
      * intros ([| i] & Hi & Hpi); cbn in Hi.
        -- left. injection Hi as <-. now rewrite Nat.add_0_r in Hpi.
        -- right. exists i. now rewrite Nat.add_succ_r in Hpi.
    + intros Hndc. inversion Hndc as [| ? ? Hnot Hndc']; subst.
      apply NoDup_app; [| now apply Hnd |].
      * destruct (probes k c) as [[| p | p] | e]; repeat constructor. intros [].
      * intros x Hx Hx'. apply In_open_here in Hx as [-> _].
        apply Hnot. now apply Hincl.
    + intros x Hx. apply in_app_iff in Hx as [Hx | Hx].
      * apply In_open_here in Hx as [-> _]. now left.
      * right. now apply Hincl.
Qed.

Lemma submit_probes_length (probes : nat -> prober) (candidates : list string) :
  forall k, List.length (submit_probes probes k candidates) = List.length candidates.
Proof. induction candidates as [| c l IH]; intros k; cbn; [reflexivity | now rewrite IH]. Qed.

(** X4. [findActiveHosts] returns exactly the candidates whose probe
    connected ([connect_ex] returned 0), each once, whatever the order in
    which the probes complete; every host it returns is a mesh IPv4
    address. *)
Theorem findActiveHosts_open_candidates (tailscale : run_outcome)
    (shuffle : list string -> list string) (probes : nat -> prober)
    (order : list nat) :
  (forall l, Permutation (shuffle l) l) ->
  Permutation order
    (seq 0 (List.length (getTailscaleIps tailscale shuffle))) ->
  let hosts := findActiveHosts tailscale shuffle probes order in
  (forall ip,
      In ip hosts <->
      exists i, nth_error (getTailscaleIps tailscale shuffle) i = Some ip /\
                probes i ip = Connected 0) /\
  NoDup hosts /\
  Forall mesh_ipv4 hosts.
Proof.
  intros Hsh Hperm hosts. unfold hosts, findActiveHosts.
  assert (Hmesh : NoDup (getTailscaleIps tailscale shuffle) /\
                  Forall mesh_ipv4 (getTailscaleIps tailscale shuffle)).
  { unfold getTailscaleIps.
    destruct (tailscale_set_mesh tailscale) as [Hnd Hall]. split.
    - exact (Permutation_NoDup (Permutation_sym (Hsh _)) Hnd).
    - exact (Permutation_Forall (Permutation_sym (Hsh _)) Hall). }
  destruct Hmesh as [Hnd Hall].
  set (candidates := getTailscaleIps tailscale shuffle) in *.
  destruct (appended_probes probes candidates 0 Hall) as (Hin & Hndp & Hincl).
  destruct candidates as [| c rest] eqn:Hc.
  - split; [| split; constructor].
    intros ip. split; [intros [] | intros ([| i] & Hi & _); discriminate].
  - rewrite <- Hc in *. rewrite findActiveHosts_collect_spec. cbn [app].
    assert (Hp : Permutation
                   (appended (as_completed order (submit_probes probes 0 candidates)))
                   (appended (submit_probes probes 0 candidates))).
    { unfold appended. apply Permutation_flat_map, as_completed_perm.
      now rewrite submit_probes_length. }
    split; [| split].
    + intros ip. rewrite <- Hin. split; apply Permutation_in;
        [exact Hp | exact (Permutation_sym Hp)].
    + exact (Permutation_NoDup (Permutation_sym Hp) (Hndp Hnd)).
    + apply Forall_forall. intros ip Hip.
      apply (Permutation_in _ Hp) in Hip. apply Hincl in Hip.
      rewrite Forall_forall in Hall. now apply Hall.
Qed.

(** ** Inventory *)

Lemma mapM_res_named (entries names : list json) :
  Forall2 named entries names ->
  mapM_res (fun m => json_getitem m "name") entries = Ok names.
Proof.
  induction 1 as [| entry name entries names (fields & -> & Hname) _ IH]; cbn;
    [reflexivity |].
  rewrite Hname. cbn. now rewrite IH.
Qed.

Lemma mapM_res_raises {A B : Type} (f : A -> res B) (l : list A) (a : A) (e : exn) :
  In a l -> f a = Raise e -> exists e', mapM_res f l = Raise e'.
Proof.
  intros Hin Hf. induction l as [| b l IH]; [destruct Hin |]. cbn.
  destruct Hin as [-> | Hin].
  - rewrite Hf. cbn. eauto.
  - destruct (f b); cbn; [| eauto].
    destruct (IH Hin) as [e' ->]. cbn. eauto.
Qed.

Lemma status_passes (r : response) :
  ~ (400 <= status_code r < 600) -> raise_for_status r = Ok tt.
Proof.
  intros H. unfold raise_for_status.
  destruct (400 <=? status_code r)%Z eqn:H1; destruct (status_code r <? 600)%Z eqn:H2;
    try reflexivity.
  exfalso. apply H. lia.
Qed.

(** X5. A host that answers [GET /api/tags] with a status outside 400..599
    and a body whose ["models"] is a list of objects carrying a ["name"]
    makes [getModelsOnHost] return these names, in the order of the list,
    after this one request. *)
Theorem getModelsOnHost_names (net : network) (ip : string) (tr : list event)
    (r : response) (fields : list (string * json)) (entries names : list json) :
  net tr (EvGet (api_url ip "11434" "/api/tags") 5) = Answer r ->
  ~ (400 <= status_code r < 600) ->
  body r = Some (JObj fields) ->
  dict_get "models" fields = Some (JArr entries) ->
  Forall2 named entries names ->
  getModelsOnHost net ip tr
  = (Ok (ip, names), EvGet (api_url ip "11434" "/api/tags") 5 :: tr).
Proof.
  intros Hnet Hst Hbody Hmodels Hnames.
  unfold getModelsOnHost, bind, attempt, requests_get, request, lift, ret, resp_json.
  rewrite Hnet, (status_passes r Hst), Hbody. cbn. rewrite Hmodels. cbn.
  now rewrite (mapM_res_named entries names Hnames).
Qed.

(** X6. One entry of ["models"] without a name (no ["name"] key, or an
    entry that is not an object) hides every model of the host:
    [getModelsOnHost] returns the host with no model, whatever the other
    entries are. *)
Theorem getModelsOnHost_all_or_nothing (net : network) (ip : string)
    (tr : list event) (r : response) (fields : list (string * json))
    (entries : list json) (entry : json) (e : exn) :
  net tr (EvGet (api_url ip "11434" "/api/tags") 5) = Answer r ->
  body r = Some (JObj fields) ->
  dict_get "models" fields = Some (JArr entries) ->
  In entry entries ->
  json_getitem entry "name" = Raise e ->
  getModelsOnHost net ip tr
  = (Ok (ip, []), EvGet (api_url ip "11434" "/api/tags") 5 :: tr).
Proof.
  intros Hnet Hbody Hmodels Hin Hentry.
  unfold getModelsOnHost, bind, attempt, requests_get, request, lift, ret, resp_json.
  rewrite Hnet. destruct (raise_for_status r) as [[] | e0]; [| reflexivity].
  rewrite Hbody. cbn. rewrite Hmodels. cbn.
  destruct (mapM_res_raises (fun m => json_getitem m "name") entries entry e Hin Hentry)
    as [e' ->].
  reflexivity.
Qed.

Lemma mapNetwork_collect_store (items : list (string * list json)) :
  forall acc,
    mapNetwork_collect (map Ok items) acc = Ok (store_all (filter has_models items) acc).
Proof.
  induction items as [| [k [| m l]] items IH]; intros acc; cbn; [reflexivity | |];
    now rewrite IH.
Qed.

Lemma mapNetwork_collect_has_models (done : list (res (string * list json))) :
  forall acc inventory,
    mapNetwork_collect done acc = Ok inventory ->
    (forall host, In host acc -> has_models host = true) ->
    forall host, In host inventory -> has_models host = true.
Proof.
  induction done as [| [[k [| m l]] | e] done IH]; intros acc inventory; cbn.
  - intros [= <-] H. exact H.
  - apply IH.
  - intros Hc Hacc. apply (IH _ _ Hc).
    intros [k' l'] Hin. apply In_dict_set in Hin.
    destruct Hin as [[= -> ->] | Hin]; [reflexivity | now apply Hacc].
  - discriminate.
Qed.

Lemma proxy_targets_all (inventory : dict (list json)) :
  (forall host, In host inventory -> has_models host = true) ->
  proxy_targets inventory = map proxy_target inventory.
Proof.
  induction inventory as [| [k l] inventory IH]; intros H; [reflexivity |].
  assert (Hl := H (k, l) (or_introl eq_refl)).
  destruct l as [| m l]; [discriminate |].
  change (proxy_targets ((k, m :: l) :: inventory))
    with (proxy_target (k, m :: l) :: proxy_targets inventory).
  rewrite IH by (intros host Hin; apply H; now right).
  reflexivity.
Qed.

(** X7. On an inventory returned by [mapNetwork], the filter of
    [generateProxyJson] drops nothing: the configuration has one target
    for every host of the inventory, in the order of the inventory, with
    the URL of the host on port 11434 and the whole list of its models. *)
Theorem generateProxyJson_of_inventory (nets : nat -> network)
    (order : list nat) (hosts : list string) (inventory : dict (list json)) :
  mapNetwork nets order hosts = Ok inventory ->
  forall dumps : json -> string,
    generateProxyJson dumps inventory
    = dumps (JObj [("targets", JArr (map proxy_target inventory))]).
Proof.
  intros Hmap dumps. unfold generateProxyJson.
  rewrite proxy_targets_all; [reflexivity |].
  apply (mapNetwork_collect_has_models _ [] inventory Hmap). intros host [].
Qed.

Lemma filter_keeps_keys_distinct {V : Type} (keep : string * V -> bool) (d : dict V) :
  NoDup (map fst d) -> NoDup (map fst (filter keep d)).
Proof.
  induction d as [| [k v] d IH]; intros Hnd; [constructor |].
  apply NoDup_cons_iff in Hnd as [Hnotin Hnd]. cbn [filter].
  destruct (keep (k, v)); [| now apply IH].
  cbn [map fst]. apply NoDup_cons; [| now apply IH].
  intros Hin. apply Hnotin. apply in_map_iff in Hin as ([k' v'] & Hk & Hin).
  apply filter_In in Hin as [Hin _]. apply in_map_iff. now exists (k', v').
Qed.

Lemma host_answers_fst (nets : nat -> network) (hosts : list string) :
  forall i, map fst (host_answers nets i hosts) = hosts.
Proof.
  induction hosts as [| ip hosts IH]; intros i; cbn; [reflexivity | now rewrite IH].
Qed.

Lemma store_all_In {V : Type} (items : list (string * V)) :
  forall acc k v,
    In (k, v) (store_all items acc) -> In (k, v) items \/ In (k, v) acc.
Proof.
  unfold store_all.
  induction items as [| [k0 v0] items IH]; intros acc k v; cbn; [now right |].
  intros H. destruct (IH _ _ _ H) as [H' | H']; [left; now right |].
  apply In_dict_set in H'. destruct H' as [H' | H']; [left; now left | now right].
Qed.

(** X8. For distinct hosts, the inventory maps a host to a list of models
    exactly when the host was queried and this is the non-empty list it
    reported, whatever the order in which the queries complete. *)
Theorem mapNetwork_lookup (nets : nat -> network) (order : list nat)
    (hosts : list string) :
  NoDup hosts ->
  Permutation order (seq 0 (List.length hosts)) ->
  exists inventory,
    mapNetwork nets order hosts = Ok inventory /\
    forall ip models,
      dict_get ip inventory = Some models <->
      models <> [] /\
      exists i, nth_error hosts i = Some ip /\ host_models (nets i) ip = models.
Proof.
  intros Hnd Hperm. unfold mapNetwork.
  assert (Hdone : Permutation
                    (as_completed order (submit_all getModelsOnHost nets 0 hosts))
                    (submit_all getModelsOnHost nets 0 hosts)).
  { apply as_completed_perm. now rewrite submit_all_length. }
  rewrite inventory_futures in Hdone |- *.
  destruct (Permutation_map_inv _ _ Hdone) as (items & Heq & Hp).
  rewrite Heq, mapNetwork_collect_store.
  eexists. split; [reflexivity |].
  assert (Hnd' : NoDup (map fst (filter has_models items))).
  { apply filter_keeps_keys_distinct.
    apply (Permutation_NoDup (Permutation_map fst Hp)).
    now rewrite host_answers_fst. }
  assert (Hitems : forall ip models,
             In (ip, models) items <->
             exists i, nth_error hosts i = Some ip /\ host_models (nets i) ip = models).
  { intros ip models. split.
    - intros Hin. apply (Permutation_in _ (Permutation_sym Hp)) in Hin.
      apply host_answers_In in Hin. destruct Hin as (j & Hj & ->). now exists j.
    - intros (j & Hj & <-). apply (Permutation_in _ Hp).
      apply host_answers_In. now exists j. }
  intros ip models. split.
  - intros Hget. apply dict_get_In in Hget.
    destruct (store_all_In _ _ _ _ Hget) as [Hin | []].
    apply filter_In in Hin. destruct Hin as [Hin Hm]. split.
    + destruct models; [discriminate | discriminate].
    + now apply Hitems.
  - intros [Hne Hex]. apply store_all_get; [exact Hnd' |].
    apply filter_In. split; [now apply Hitems |].
    destruct models; [contradiction | reflexivity].
Qed.

(** ** Benchmark *)







(** A negative cooldown *)



Lemma submit_all_In {A B : Type} (task : network -> A -> M B)
    (nets : nat -> network) (l : list A) (f : res B) :
  forall i,
    In f (submit_all task nets i l) ->
    exists j a, In a l /\ f = submit (task (nets j) a).
Proof.
  induction l as [| a l IH]; intros i; cbn; [intros [] |].
  intros [<- | H]; [exists i, a; now split; [left |] |].
  destruct (IH _ H) as (j & b & Hb & ->). exists j, b. split; [now right | reflexivity].
Qed.


Lemma as_completed_In {A : Type} (order : list nat) (futures : list A) (f : A) :
  In f (as_completed order futures) -> In f futures.
Proof.
  unfold as_completed. intros H. apply in_flat_map in H as (i & _ & H).
  destruct (nth_error futures i) as [g |] eqn:Hn; [| destruct H].
  destruct H as [<- | []]. now apply nth_error_In in Hn.
Qed.


(** What holds for every value [benchmarkSingleModel] returns holds for
    every entry of the result. *)

Lemma benchmark_models_all (P : bench_result -> Prop) (net : network)
    (ip_ : string) (args : Args) (models : list string) :
  (forall model_ tr v tr',
      benchmarkSingleModel net ip_ model_ args tr = (Ok v, tr') -> P v) ->
  forall results tr results' tr',
    benchmark_models net ip_ args models results tr = (Ok results', tr') ->
    (forall k v, In (k, v) results -> P v) ->
    forall k v, In (k, v) results' -> P v.
Proof.
  intros HP. induction models as [| m models IH]; intros results tr results' tr'.
  - cbn. intros [= <- _] H. exact H.
  - cbn [benchmark_models]. unfold bind at 1.
    destruct (benchmarkSingleModel net ip_ m args tr) as [[v | e] tr1] eqn:Hb;
      [| discriminate].
    unfold bind at 1.
    destruct (time_sleep (cooldown args) tr1) as [[[] | e] tr2]; [| discriminate].
    intros Hrest Hres. apply (IH _ _ _ _ Hrest).
    intros k v' Hin. apply In_dict_set in Hin.
    destruct Hin as [[= -> ->] | Hin]; [exact (HP _ _ _ _ Hb) | now apply (Hres k)].
Qed.

Lemma runRobustBenchmarks_all (P : bench_result -> Prop) (nets : nat -> network)
    (order : list nat) (inventory : dict (list string)) (args : Args)
    (stats : dict (dict bench_result)) :
  (forall j ip_ model_ tr v tr',
      benchmarkSingleModel (nets j) ip_ model_ args tr = (Ok v, tr') -> P v) ->
  runRobustBenchmarks nets order inventory args = Ok stats ->
  all_entries P stats.
Proof.
  intros HP. unfold runRobustBenchmarks.
  destruct (workers args <=? 0)%Z; [discriminate |].
  intros H. apply runRobustBenchmarks_collect_ok in H as (items & Hdone & ->).
  intros ip_ data name v Hin Hv.
  apply store_all_In in Hin as [Hin | []].
  assert (Hf : In (Ok (ip_, data))
                 (as_completed order
                    (submit_all (fun net => processHostBenchmarks net args) nets 0
                       inventory)))
    by (rewrite Hdone; now apply in_map).
  apply as_completed_In in Hf. apply submit_all_In in Hf as (j & [k l] & _ & Hf).
  unfold submit, processHostBenchmarks, bind, ret in Hf.
  destruct (benchmark_models (nets j) k args l [] []) as [[results | e] tr1] eqn:Hb;
    [| discriminate].
  cbn in Hf. injection Hf as -> ->.
  apply (benchmark_models_all P (nets j) k args l (HP j k) _ _ _ _ Hb
           (fun _ _ H => match H with end) name v Hv).
Qed.

Lemma markers_give_no_row (stats : dict (dict bench_result)) :
  all_entries is_marker stats -> generateRoutingDataFrame stats = [].
Proof.
  intros H. rewrite generateRoutingDataFrame_sort, rows_are_numeric_entries.
  destruct (numeric_entries stats) as [| [[host name] v] l] eqn:Hn; [reflexivity |].
  assert (Hin : In (host, name, v) (numeric_entries stats)) by (rewrite Hn; now left).
  apply numeric_entries_In in Hin as (models & Hm & Hv).
  destruct (H _ _ _ _ Hm Hv).
Qed.

(** X11. With [args.runs <= 0] no throughput is measured: every entry of
    the result of [runRobustBenchmarks] is a failure marker and the
    routing table built from it is empty. *)
Theorem no_run_no_route (nets : nat -> network) (order : list nat)
    (inventory : dict (list string)) (args : Args)
    (stats : dict (dict bench_result)) :
  runs args <= 0 ->
  runRobustBenchmarks nets order inventory args = Ok stats ->
  all_entries is_marker stats /\ generateRoutingDataFrame stats = [].
Proof.
  intros Hruns Hrun.
  assert (Hall : all_entries is_marker stats).
  { apply (runRobustBenchmarks_all is_marker nets order inventory args stats);
      [| exact Hrun].
    intros j ip_ model_ tr v tr'.
    destruct (nets j tr (warmup_request ip_ model_ args)) as [w | e] eqn:H.
    - rewrite (benchmarkSingleModel_warm (nets j) ip_ model_ args tr w H).
      unfold samples_of_pair.
      replace (Z.to_nat (runs args)) with 0%nat by lia.
      cbn. intros [= <- _]. exact I.
    - rewrite (benchmarkSingleModel_cold (nets j) ip_ model_ args tr e H).
      intros [= <- _]. exact I. }
  split; [exact Hall | now apply markers_give_no_row].
Qed.

(** The order of completion *)

Lemma dict_set_fresh {V : Type} (k : string) (v : V) (d : dict V) :
  ~ In k (keys d) -> dict_set k v d = d ++ [(k, v)].
Proof.
  induction d as [| [k0 v0] d IH]; cbn; intros H; [reflexivity |].
  destruct (String.eqb_spec k k0) as [-> | Hne]; [exfalso; apply H; now left |].
  rewrite IH; [reflexivity |]. intros Hin. apply H. now right.
Qed.

Lemma store_all_fresh {V : Type} (items : list (string * V)) :
  forall acc,
    NoDup (keys acc ++ map fst items) -> store_all items acc = acc ++ items.
Proof.
  unfold store_all.
  induction items as [| [k v] items IH]; intros acc Hnd; cbn.
  - now rewrite app_nil_r.
  - cbn in Hnd. rewrite dict_set_fresh.
    + rewrite IH; [now rewrite <- app_assoc |].
      unfold keys in *. rewrite map_app, <- app_assoc. exact Hnd.
    + apply NoDup_remove_2 in Hnd. intros Hin. apply Hnd.
      apply in_or_app. now left.
Qed.

Lemma dict_get_perm {V : Type} (d d' : dict V) (k : string) :
  NoDup (keys d) -> Permutation d d' -> dict_get k d' = dict_get k d.
Proof.
  intros Hnd Hp.
  assert (Hnd' : NoDup (keys d'))
    by (apply (Permutation_NoDup (Permutation_map fst Hp) Hnd)).
  destruct (dict_get k d) as [v |] eqn:Hd.
  - apply In_dict_get; [exact Hnd' |].
    apply (Permutation_in _ Hp). now apply dict_get_In.
  - destruct (dict_get k d') as [v |] eqn:Hd'; [| reflexivity].
    apply dict_get_In in Hd'. apply (Permutation_in _ (Permutation_sym Hp)) in Hd'.
    apply (In_dict_get _ _ _ Hnd) in Hd'. congruence.
Qed.

(** X12. The order in which the host tasks complete changes only the
    order of the hosts in the result of [runRobustBenchmarks]: with
    another order the call returns as well, the result holds the same
    entry for every host, and the routing table has the same rows. *)
Theorem completion_order_is_immaterial (nets : nat -> network)
    (order1 order2 : list nat) (inventory : dict (list string)) (args : Args)
    (stats1 : dict (dict bench_result)) :
  NoDup (keys inventory) ->
  Permutation order1 (seq 0 (List.length inventory)) ->
  Permutation order2 (seq 0 (List.length inventory)) ->
  runRobustBenchmarks nets order1 inventory args = Ok stats1 ->
  exists stats2,
    runRobustBenchmarks nets order2 inventory args = Ok stats2 /\
    Permutation stats1 stats2 /\
    (forall ip_, dict_get ip_ stats2 = dict_get ip_ stats1) /\
    Permutation (generateRoutingDataFrame stats1) (generateRoutingDataFrame stats2).
Proof.
  intros Hnd Hp1 Hp2. unfold runRobustBenchmarks.
  destruct (workers args <=? 0)%Z; [discriminate |].
  set (futures := submit_all (fun net => processHostBenchmarks net args) nets 0 inventory).
  assert (Hlen : List.length futures = List.length inventory)
    by (unfold futures; apply submit_all_length).
  intros H1. apply runRobustBenchmarks_collect_ok in H1 as (items1 & Hd1 & ->).
  pose proof (as_completed_perm order1 futures) as Hc1.
  rewrite Hlen, Hd1 in Hc1. specialize (Hc1 Hp1).
  destruct (Permutation_map_inv _ _ (Permutation_sym Hc1)) as (items0 & Hf & Hi1).
  pose proof (as_completed_perm order2 futures) as Hc2.
  rewrite Hlen in Hc2. specialize (Hc2 Hp2). rewrite Hf in Hc2 at 2.
  destruct (Permutation_map_inv _ _ Hc2) as (items2 & Hd2 & Hi2).
  rewrite Hd2, runRobustBenchmarks_collect_total.
  assert (Hk0 : NoDup (map fst items0)).
  { pose proof (submit_all_Forall2 (fun net => processHostBenchmarks net args)
                  nets inventory 0) as HF.
    fold futures in HF. rewrite Hf in HF.
    apply host_futures_items in HF. apply Forall2_keys in HF.
    rewrite HF. exact Hnd. }
  assert (Hk1 : NoDup (map fst items1))
    by (apply (Permutation_NoDup (Permutation_map fst (Permutation_sym Hi1)) Hk0)).
  assert (Hk2 : NoDup (map fst items2))
    by (apply (Permutation_NoDup (Permutation_map fst Hi2) Hk0)).
  rewrite !store_all_fresh by assumption. cbn [app].
  assert (Hp : Permutation items1 items2) by (now rewrite Hi1).
  exists items2. split; [reflexivity |]. split; [exact Hp |]. split.
  - intros ip_. now apply dict_get_perm.
  - rewrite !generateRoutingDataFrame_sort, !sort_values_perm.
    now apply Permutation_flat_map.
Qed.

(** Hosts that count in integers *)

Lemma round_ratio_unsigned (n d : Z) : unsigned (Float64.round_ratio false n d).
Proof.
  unfold Float64.round_ratio. destruct n; try exact I.
  destruct (Float64.round_pos _ d) as [m e]. unfold Float64.make_float.
  destruct m; try exact I. now destruct (e <=? Float64.etop)%Z.
Qed.

Lemma of_int_unsigned (z : Z) (x : spec_float) :
  0 <= z -> Float64.of_int z = Ok x -> unsigned x /\ Float64.is_inf x = false.
Proof.
  intros Hz. unfold Float64.of_int, Float64.round_Q. cbn [inject_Z Qnum Qden].
  replace (z <? 0)%Z with false by (symmetry; apply Z.ltb_ge; lia).
  pose proof (round_ratio_unsigned (Z.abs z) 1) as H.
  destruct (Float64.round_ratio false (Z.abs z) 1); intros [= <-]; now split.
Qed.

Lemma truediv_unsigned (x y q : spec_float) :
  unsigned x -> Float64.is_inf x = false -> unsigned y ->
  Float64.truediv x y = Ok q -> unsigned q.
Proof.
  intros Hx Hfin Hy. unfold Float64.truediv.
  destruct y as [[|] | [|] | | [|] my ey]; try destruct Hy; try discriminate;
    destruct x as [[|] | [|] | | [|] mx ex]; try destruct Hx; try discriminate;
    intros [= <-]; try exact I.
  cbn. destruct (Float64.scale _ _ _). apply round_ratio_unsigned.
Qed.

Lemma json_truediv_unsigned (z : Z) (y q : spec_float) :
  0 <= z -> unsigned y -> json_truediv (JInt z) y = Ok q -> unsigned q.
Proof.
  intros Hz Hy. unfold json_truediv. cbn [json_to_float].
  destruct (Float64.of_int z) as [x | e] eqn:Hx; [| discriminate]. cbn.
  destruct (of_int_unsigned z x Hz Hx) as [Hu Hfin].
  now apply truediv_unsigned.
Qed.

Lemma sample_unsigned (net : network) (tr : list event) (ev : event)
    (r : response) (tps : spec_float) :
  integer_counters net -> net tr ev = Answer r ->
  sample_of r = Ok (Some tps) -> unsigned tps.
Proof.
  intros Hnet Hr Hs.
  apply sample_of_inv in Hs
    as (_ & data & duration & count & seconds & Hbody & _ & Hpos & Hc & Hd & Hsec & Htps).
  destruct data as [| | | | | | fields]; try discriminate.
  destruct (Hnet tr ev r fields Hr Hbody) as [Hcount Hduration].
  cbn in Hc, Hd.
  destruct (dict_get "eval_count" fields) as [c |] eqn:Hgc; [| discriminate].
  destruct (dict_get "eval_duration" fields) as [d |] eqn:Hgd; [| discriminate].
  injection Hc as ->. injection Hd as ->.
  destruct (Hcount _ eq_refl) as (zc & -> & Hzc).
  destruct (Hduration _ eq_refl) as (zd & ->).
  cbn in Hpos. injection Hpos as Hpos. apply Z.ltb_lt in Hpos.
  apply (json_truediv_unsigned zc seconds tps Hzc); [| exact Htps].
  apply (json_truediv_unsigned zd f1e9 seconds); [lia | exact I | exact Hsec].
Qed.

Lemma run_outcomes_In (net : network) (ev : event) (n : nat) (o : outcome) :
  forall tr, In o (run_outcomes net ev n tr) -> exists tr', o = net tr' ev.
Proof.
  induction n as [| n IH]; intros tr; cbn; [intros [] |].
  intros [<- | H]; [now exists tr | exact (IH _ H)].
Qed.

Lemma samples_unsigned (net : network) (ip_ model_ : string) (args : Args)
    (tr : list event) :
  integer_counters net -> Forall unsigned (samples_of_pair net ip_ model_ args tr).
Proof.
  intros Hnet. apply Forall_forall. intros x Hx.
  unfold samples_of_pair in Hx. apply in_flat_map in Hx as (o & Ho & Hx).
  apply run_outcomes_In in Ho as (tr' & ->).
  unfold collected in Hx.
  destruct (net tr' (measured_request ip_ model_ args)) as [r | e] eqn:Hr;
    [| destruct Hx].
  destruct (sample_of r) as [[tps |] | e] eqn:Hs; [| destruct Hx | destruct Hx].
  destruct Hx as [<- | []].
  exact (sample_unsigned net tr' _ r tps Hnet Hr Hs).
Qed.

Lemma special_fold_unsigned (l : list spec_float) :
  Forall unsigned l ->
  forall acc,
    acc = None \/ acc = Some (S754_infinity false) ->
    fold_left special_step l acc = None \/
    fold_left special_step l acc = Some (S754_infinity false).
Proof.
  induction 1 as [| x l Hx _ IH]; intros acc Hacc; cbn [fold_left]; [exact Hacc |].
  apply IH. unfold special_step.
  destruct x as [[|] | [|] | | [|] m e]; try destruct Hx; cbn; try exact Hacc.
  destruct Hacc as [-> | ->]; right; reflexivity.
Qed.

Lemma mean_not_nan (l : list spec_float) (mu : spec_float) :
  Forall unsigned l -> statistics_mean l = Ok mu -> Float64.is_nan mu = false.
Proof.
  intros Hl. unfold statistics_mean.
  destruct (Z.of_nat (List.length l) <? 1)%Z eqn:Hn; [discriminate |].
  apply Z.ltb_ge in Hn.
  destruct (special_fold_unsigned l Hl None (or_introl eq_refl)) as [Hs | Hs];
    unfold special_sum; rewrite Hs.
  - unfold Float64.of_Q, Float64.round_Q.
    match goal with
    | |- context [Float64.round_ratio ?s ?n ?d] =>
        pose proof (Float64Facts.round_ratio_not_nan s n d) as Hq;
        destruct (Float64.round_ratio s n d)
    end; intros [= <-]; try reflexivity; discriminate.
  - destruct (Float64.of_int (Z.of_nat (List.length l))) as [nf | e] eqn:Hnf;
      [| discriminate].
    destruct (of_int_unsigned _ nf (Nat2Z.is_nonneg _) Hnf) as [Hu Hfin]. cbn.
    destruct nf as [[|] | [|] | | [|] m e]; try destruct Hu; try discriminate;
      intros [= <-]; reflexivity.
Qed.

Lemma round2_not_nan (x v : spec_float) :
  Float64.is_nan x = false -> Float64.round2 x = Ok v -> Float64.is_nan v = false.
Proof.
  intros Hx. unfold Float64.round2. destruct x as [s | s | | s m e];
    try discriminate; try (intros [= <-]; reflexivity).
  destruct (Float64.ratio_of m e) as [n d].
  match goal with
  | |- context [Float64.round_ratio ?s ?n ?d] =>
      pose proof (Float64Facts.round_ratio_not_nan s n d) as Hq;
      destruct (Float64.round_ratio s n d)
  end; intros [= <-]; try reflexivity; discriminate.
Qed.

Lemma aggregate_not_nan (l : list spec_float) (v : bench_result) :
  Forall unsigned l -> aggregate l = Ok v -> not_nan_result v.
Proof.
  intros Hl. unfold aggregate. destruct l as [| x l]; [intros [= <-]; exact I |].
  destruct (statistics_mean (x :: l)) as [mu | e] eqn:Hmu; [| discriminate]. cbn.
  destruct (Float64.round2 mu) as [y | e] eqn:Hy; [| discriminate]. cbn.
  intros [= <-]. cbn. apply (round2_not_nan mu y); [| exact Hy].
  now apply (mean_not_nan (x :: l)).
Qed.

Lemma benchmarkSingleModel_not_nan (net : network) (ip_ model_ : string)
    (args : Args) (tr tr' : list event) (v : bench_result) :
  integer_counters net ->
  benchmarkSingleModel net ip_ model_ args tr = (Ok v, tr') -> not_nan_result v.
Proof.
  intros Hnet.
  destruct (net tr (warmup_request ip_ model_ args)) as [w | e] eqn:H.
  - rewrite (benchmarkSingleModel_warm net ip_ model_ args tr w H).
    intros [= Hagg _]. apply (aggregate_not_nan _ _ (samples_unsigned _ _ _ _ _ Hnet) Hagg).
  - rewrite (benchmarkSingleModel_cold net ip_ model_ args tr e H).
    intros [= <- _]. exact I.
Qed.

Lemma earlier_later_In (table : list row) (r1 r2 : row) :
  earlier_later table r1 r2 -> In r2 table.
Proof.
  intros (before & between & after & ->).
  apply in_or_app. right. right. apply in_or_app. right. now left.
Qed.

(** X13. When every response that carries counters reports them as
    integers, [eval_count] being non-negative, no throughput of the
    result of [runRobustBenchmarks] is a NaN, and the routing table is
    ranked: of two rows for the same model, the earlier one has the
    greater or equal throughput. *)
Theorem integer_counters_rank_every_row (nets : nat -> network)
    (order : list nat) (inventory : dict (list string)) (args : Args)
    (stats : dict (dict bench_result)) :
  (forall j, integer_counters (nets j)) ->
  runRobustBenchmarks nets order inventory args = Ok stats ->
  all_entries not_nan_result stats /\
  throughput_descending (generateRoutingDataFrame stats).
Proof.
  intros Hnets Hrun.
  assert (Hall : all_entries not_nan_result stats).
  { apply (runRobustBenchmarks_all not_nan_result nets order inventory args stats);
      [| exact Hrun].
    intros j ip_ model_ tr v tr'. apply benchmarkSingleModel_not_nan, Hnets. }
  split; [exact Hall |].
  intros r1 r2 Hel Heq.
  assert (Hin : In r2 (generateRoutingDataFrame stats))
    by exact (earlier_later_In _ _ _ Hel).
  rewrite generateRoutingDataFrame_sort in Hel, Hin.
  pose proof (StronglySorted_earlier_later row_le _ r1 r2 (sort_values_sorted _) Hel)
    as Hle.
  apply tps_before_geb; [now apply row_before_tps |].
  apply (Permutation_in _ (sort_values_perm _)) in Hin.
  rewrite rows_are_numeric_entries in Hin.
  apply in_map_iff in Hin as ([[host name] v] & <- & Hin).
  apply numeric_entries_In in Hin as (models & Hm & Hv).
  exact (Hall _ _ _ _ Hm Hv).
Qed.

(** ** Scenarios of the further properties *)

Lemma rev_shuffles (l : list string) : Permutation (rev l) l.
Proof. apply Permutation_sym, Permutation_rev. Qed.

Lemma mesh_addresses_scenario :
  (forall l : list string, Permutation (rev l) l) /\
  NoDup (getTailscaleIps mesh_status (@rev string)) /\
  Forall mesh_ipv4 (getTailscaleIps mesh_status (@rev string)).
Proof.
  split; [exact rev_shuffles |].
  exact (getTailscaleIps_mesh_addresses mesh_status (@rev string) rev_shuffles).
Defined.

Lemma mesh_nodes_plain : Forall plain_node (mesh_self :: map snd mesh_peers).
Proof.
  repeat constructor; eexists; (split; [reflexivity |]); right; eexists; reflexivity.
Qed.

Lemma self_and_peers_scenario :
  dict_get "Self" mesh_top = Some mesh_self /\
  dict_get "Peer" mesh_top = Some (JObj mesh_peers) /\
  Forall plain_node (mesh_self :: map snd mesh_peers) /\
  (forall l : list string, Permutation (rev l) l) /\
  forall s,
    In s (getTailscaleIps mesh_status (@rev string)) <->
    (lists_address mesh_self s \/
     exists name peer, In (name, peer) mesh_peers /\ lists_address peer s) /\
    mesh_ipv4 s.
Proof.
  split; [reflexivity |]. split; [reflexivity |].
  split; [exact mesh_nodes_plain |]. split; [exact rev_shuffles |].
  exact (getTailscaleIps_self_and_peers mesh_top mesh_self mesh_peers (@rev string)
           eq_refl eq_refl mesh_nodes_plain rev_shuffles).
Defined.


Lemma open_candidates_scenario :
  (forall l : list string, Permutation (rev l) l) /\
  Permutation [1; 0]%nat
    (seq 0 (List.length (getTailscaleIps mesh_status (@rev string)))) /\
  NoDup (findActiveHosts mesh_status (@rev string) (fun _ => one_open) [1; 0]%nat) /\
  Forall mesh_ipv4
    (findActiveHosts mesh_status (@rev string) (fun _ => one_open) [1; 0]%nat).
Proof.
  assert (Hp : Permutation [1; 0]%nat
                 (seq 0 (List.length (getTailscaleIps mesh_status (@rev string)))))
    by apply perm_swap.
  split; [exact rev_shuffles |]. split; [exact Hp |].
  exact (proj2 (findActiveHosts_open_candidates mesh_status (@rev string)
                  (fun _ => one_open) [1; 0]%nat rev_shuffles Hp)).
Defined.

Lemma reported_names_scenario :
  let r := {| status_code := 200;
              body := Some (JObj [("models",
                                   JArr [JObj [("name", JStr "llama3")];
                                         JObj [("name", JStr "phi3")]])]) |} in
  tags_net [] (EvGet (api_url "a" "11434" "/api/tags") 5) = Answer r /\
  ~ (400 <= status_code r < 600) /\
  Forall2 named [JObj [("name", JStr "llama3")]; JObj [("name", JStr "phi3")]]
    [JStr "llama3"; JStr "phi3"] /\
  getModelsOnHost tags_net "a" []
  = (Ok ("a", [JStr "llama3"; JStr "phi3"]),
     [EvGet (api_url "a" "11434" "/api/tags") 5]).
Proof.
  intros r.
  assert (Hst : ~ (400 <= status_code r < 600)) by (cbn; lia).
  assert (Hn : Forall2 named
                 [JObj [("name", JStr "llama3")]; JObj [("name", JStr "phi3")]]
                 [JStr "llama3"; JStr "phi3"])
    by (repeat constructor; eexists; split; reflexivity).
  split; [reflexivity |]. split; [exact Hst |]. split; [exact Hn |].
  exact (getModelsOnHost_names tags_net "a" [] r _ _ _ eq_refl Hst eq_refl eq_refl Hn).
Defined.

Lemma nameless_entry_scenario :
  nameless_net [] (EvGet (api_url "a" "11434" "/api/tags") 5) = Answer nameless_response /\
  json_getitem nameless_entry "name" = Raise KeyError /\
  getModelsOnHost nameless_net "a" []
  = (Ok ("a", []), [EvGet (api_url "a" "11434" "/api/tags") 5]).
Proof.
  split; [reflexivity |]. split; [reflexivity |].
  exact (getModelsOnHost_all_or_nothing nameless_net "a" [] nameless_response _ _
           nameless_entry KeyError eq_refl eq_refl eq_refl
           (or_intror (or_introl eq_refl)) eq_refl).
Defined.

Lemma three_hosts_order :
  Permutation [2; 0; 1]%nat (seq 0 (List.length ["a"; "b"; "c"])).
Proof.
  cbn. apply Permutation_sym.
  apply (perm_trans (l' := [0; 2; 1]%nat)); [apply perm_skip, perm_swap | apply perm_swap].
Qed.

Lemma proxy_scenario :
  mapNetwork (fun _ => tags_net) [2; 0; 1]%nat ["a"; "b"; "c"]
  = Ok [("a", [JStr "llama3"; JStr "phi3"])] /\
  forall dumps : json -> string,
    generateProxyJson dumps [("a", [JStr "llama3"; JStr "phi3"])]
    = dumps (JObj [("targets",
                    JArr [JObj [("url", JStr "http://a:11434");
                                ("models", JArr [JStr "llama3"; JStr "phi3"])]])]).
Proof.
  split; [reflexivity |].
  exact (generateProxyJson_of_inventory (fun _ => tags_net) [2; 0; 1]%nat
           ["a"; "b"; "c"] [("a", [JStr "llama3"; JStr "phi3"])] eq_refl).
Defined.

Lemma lookup_scenario :
  NoDup ["a"; "b"; "c"] /\
  Permutation [2; 0; 1]%nat (seq 0 (List.length ["a"; "b"; "c"])) /\
  exists inventory,
    mapNetwork (fun _ => tags_net) [2; 0; 1]%nat ["a"; "b"; "c"] = Ok inventory /\
    dict_get "a" inventory = Some [JStr "llama3"; JStr "phi3"].
Proof.
  assert (Hnd : NoDup ["a"; "b"; "c"])
    by (repeat constructor; cbn; intuition discriminate).
  split; [exact Hnd |]. split; [exact three_hosts_order |].
  destruct (mapNetwork_lookup (fun _ => tags_net) [2; 0; 1]%nat ["a"; "b"; "c"]
              Hnd three_hosts_order) as (inventory & Hinv & Hget).
  exists inventory. split; [exact Hinv |].
  apply Hget. split; [discriminate |]. exists 0%nat. split; reflexivity.
Defined.



Lemma no_run_scenario :
  runs no_run_args <= 0 /\
  exists stats,
    runRobustBenchmarks (fun _ => steady_net) [1; 0]%nat extreme_inventory no_run_args
    = Ok stats /\
    generateRoutingDataFrame stats = [].
Proof.
  assert (Hr : runs no_run_args <= 0) by discriminate.
  split; [exact Hr |].
  destruct (runRobustBenchmarks (fun _ => steady_net) [1; 0]%nat extreme_inventory
              no_run_args) as [stats | e] eqn:H; [| vm_compute in H; discriminate].
  exists stats. split; [reflexivity |].
  exact (proj2 (no_run_no_route (fun _ => steady_net) [1; 0]%nat extreme_inventory
                  no_run_args stats Hr H)).
Defined.

Lemma two_orders_scenario :
  NoDup (keys extreme_inventory) /\
  Permutation [0; 1]%nat (seq 0 (List.length extreme_inventory)) /\
  Permutation [1; 0]%nat (seq 0 (List.length extreme_inventory)) /\
  runRobustBenchmarks (fun _ => extreme_net) [0; 1]%nat extreme_inventory extreme_args
  = Ok extreme_stats /\
  exists stats2,
    runRobustBenchmarks (fun _ => extreme_net) [1; 0]%nat extreme_inventory
      extreme_args = Ok stats2 /\
    Permutation extreme_stats stats2.
Proof.
  assert (Hnd : NoDup (keys extreme_inventory))
    by (repeat constructor; cbn; intuition discriminate).
  assert (Hp1 : Permutation [0; 1]%nat (seq 0 (List.length extreme_inventory)))
    by apply Permutation_refl.
  assert (Hp2 : Permutation [1; 0]%nat (seq 0 (List.length extreme_inventory)))
    by apply perm_swap.
  assert (Hrun : runRobustBenchmarks (fun _ => extreme_net) [0; 1]%nat
                   extreme_inventory extreme_args = Ok extreme_stats)
    by (vm_compute; reflexivity).
  repeat (split; [assumption |]).
  destruct (completion_order_is_immaterial (fun _ => extreme_net) [0; 1]%nat
              [1; 0]%nat extreme_inventory extreme_args extreme_stats
              Hnd Hp1 Hp2 Hrun) as (stats2 & H2 & Hperm & _).
  exists stats2. split; [exact H2 | exact Hperm].
Defined.

Lemma steady_net_counts_in_integers : integer_counters steady_net.
Proof.
  intros tr ev r fields [= <-] [= <-]. split.
  - intros count [= <-]. exists 100. split; [reflexivity | lia].
  - intros duration [= <-]. now exists 2000000000.
Qed.

Lemma integer_counters_scenario :
  (forall j : nat, integer_counters ((fun _ => steady_net) j)) /\
  exists stats,
    runRobustBenchmarks (fun _ => steady_net) [1; 0]%nat extreme_inventory extreme_args
    = Ok stats /\
    throughput_descending (generateRoutingDataFrame stats).
Proof.
  split; [intros _; exact steady_net_counts_in_integers |].
  destruct (runRobustBenchmarks (fun _ => steady_net) [1; 0]%nat extreme_inventory
              extreme_args) as [stats | e] eqn:H; [| vm_compute in H; discriminate].
  exists stats. split; [reflexivity |].
  exact (proj2 (integer_counters_rank_every_row (fun _ => steady_net) [1; 0]%nat
                  extreme_inventory extreme_args stats
                  (fun _ => steady_net_counts_in_integers) H)).
Defined.
